(** * arXivist: query construction and paginated retrieval

    A shallow embedding of [src/api/retrieve_paper.py] (class [SearchQuery])
    and the properties of its query rendering, of its Atom feed parser and
    of its page generator.

    Python [str] is [string]; a Python [int] is [Z]; [None] is the [None] of
    an [option]; a raised exception is the [Raise] of a [result].  The XML
    library and the remote service are parameters of the model. *)

From Stdlib Require Import ZArith Ascii String List Lia Bool.
From stdpp Require Import base option list strings gmap pretty.

Local Open Scope string_scope.
Local Open Scope list_scope.
Local Open Scope stdpp_scope.

(** ** Python strings *)

Module PyStr.

(** [bool(s)] for a [str]: the empty string is falsy. *)
Definition truthy (s : string) : bool :=
  match s with
  | EmptyString => false
  | String _ _ => true
  end.

(** [sep.join(parts)]. *)
Definition join (sep : string) (parts : list string) : string :=
  String.concat sep parts.

(** [s.startswith(p)]. *)
Definition startswith (s p : string) : bool := String.prefix p s.

(** [s[n:]] for [0 <= n]. *)
Fixpoint slice_from (n : nat) (s : string) : string :=
  match n, s with
  | O, _ => s
  | S _, EmptyString => EmptyString
  | S n', String _ s' => slice_from n' s'
  end.

(** [needle in hay]. *)
Fixpoint contains (needle hay : string) : bool :=
  String.prefix needle hay ||
  match hay with
  | EmptyString => false
  | String _ hay' => contains needle hay'
  end.

(** Whether the character [c] occurs in [s]. *)
Fixpoint has_char (c : ascii) (s : string) : bool :=
  match s with
  | EmptyString => false
  | String a s' => Ascii.eqb a c || has_char c s'
  end.

End PyStr.

(** [bool(l)] for a [list]: the empty list is falsy. *)
Definition truthy_list {A} (l : list A) : bool :=
  match l with
  | [] => false
  | _ :: _ => true
  end.

(** ** The query object *)

Definition BASE_QUERY_URL : string := "http://export.arxiv.org/api/query/?".
Definition BASE_ARXIV_URL : string := "http://arxiv.org/abs/".
Definition XML_ATOM_ROOT : string := "{http://www.w3.org/2005/Atom}".
Definition XML_OPEN_SEARCH_ROOT : string := "{http://a9.com/-/spec/opensearch/1.1/}".

(** Modelled from the spec: [BaseQuery] ([src/utility/base_query.py]) is not
    part of the sources at hand.  Its constructor is taken to store the six
    arguments under their own names, [start] and [max_result] being the
    attributes that [get_response_with_starting_query] reads back; [query] is
    the attribute that [SearchQuery.__init__] adds. *)
Record SearchQuery : Type := mkSearchQuery {
  title_args : list string;
  author_args : list string;
  abstract_args : list string;
  id_args : list string;
  max_result : Z;
  start : Z;
  query : string
}.

(** [[f'{code}:{param}' for param in params]]. *)
Definition format_code (code : string) (params : list string) : list string :=
  map (λ param, code +:+ ":" +:+ param) params.

(** The flattened comprehension over [search_codes_to_params.items()]; a dict
    iterates in insertion order: ['ti'], ['au'], ['abs']. *)
Definition formatted_params_list (title author abstract : list string) : list string :=
  concat (map (λ cp : string * list string, format_code cp.1 cp.2)
              [("ti", title); ("au", author); ("abs", abstract)]).

(** Line 36: [('id_list=' + ','.join(id_args)) if id_args else '']. *)
Definition id_fragment (ids : list string) : string :=
  if truthy_list ids then "id_list=" +:+ PyStr.join "," ids else "".

(** Line 40: [('search_query=' + '+AND+'.join(formatted_params)) if formatted_params else '']. *)
Definition search_fragment (formatted : list string) : string :=
  if truthy_list formatted then "search_query=" +:+ PyStr.join "+AND+" formatted else "".

(** Lines 42-48. *)
Definition combine_params (formatted_params id_args_s : string) : string :=
  if PyStr.truthy formatted_params && PyStr.truthy id_args_s
  then formatted_params +:+ id_args_s
  else if PyStr.truthy id_args_s then id_args_s
  else if PyStr.truthy formatted_params then formatted_params
  else "".

(** [SearchQuery.__init__]: the object it leaves behind. *)
Definition __init__ (title author abstract ids : list string)
    (max_res st : Z) : SearchQuery :=
  let id_args_s := id_fragment ids in
  let formatted_params :=
    search_fragment (formatted_params_list title author abstract) in
  let params := combine_params formatted_params id_args_s in
  {| title_args := title; author_args := author; abstract_args := abstract;
     id_args := ids; max_result := max_res; start := st;
     query := BASE_QUERY_URL +:+ params |}.

(** [SearchQuery.__str__]: the rendered query. *)
Definition __str__ (q : SearchQuery) : string := query q.

(** ** Exceptions *)

(** The exceptions the modelled code can raise.  [ParseError] is
    [xml.etree.ElementTree.ParseError], what [fromstring] raises on text that
    is not well-formed XML (the specification's MalformedResponse);
    [AttributeError] is what an attribute access on [None] raises;
    [TypeError] and [ValueError] are those of [int(..)];
    [RequestException] stands for any failure of [requests.get]. *)
Inductive exn : Type :=
  | ParseError
  | AttributeError
  | TypeError
  | ValueError
  | RequestException.

Inductive result (A : Type) : Type :=
  | Raise (e : exn)
  | Return (a : A).
Arguments Raise {A} e.
Arguments Return {A} a.

#[global] Instance result_ret : MRet result := λ A, @Return A.
#[global] Instance result_bind : MBind result := λ A B f m,
  match m with
  | Raise e => Raise e
  | Return a => f a
  end.

(** [o.attr] where [o] may be [None]. *)
Definition deref {A} (o : option A) : result A :=
  match o with
  | None => Raise AttributeError
  | Some a => Return a
  end.

(** ** [int(text)] *)

Module PyInt.

(** [str.isspace] on the ASCII range. *)
Definition is_space (c : ascii) : bool :=
  match c with
  | "009" | "010" | "011" | "012" | "013"
  | "028" | "029" | "030" | "031" | " " => true
  | _ => false
  end%char.

Inductive phase : Type := NoDigit | AfterDigit | AfterUnderscore | Trailing.

(** The decimal literal after the sign: digits, single underscores between
    digits, then white space only. *)
Fixpoint digits (s : string) (acc : Z) (p : phase) : option Z :=
  match s with
  | EmptyString =>
      match p with
      | AfterDigit | Trailing => Some acc
      | NoDigit | AfterUnderscore => None
      end
  | String c s' =>
      match p, Ascii.is_nat c with
      | Trailing, _ => if is_space c then digits s' acc Trailing else None
      | _, Some d => digits s' (10 * acc + Z.of_nat d)%Z AfterDigit
      | AfterDigit, None =>
          if Ascii.eqb c "_" then digits s' acc AfterUnderscore
          else if is_space c then digits s' acc Trailing
          else None
      | _, None => None
      end
  end.

Definition signed (s : string) : option Z :=
  match s with
  | String "-" s' => Z.opp <$> digits s' 0%Z NoDigit
  | String "+" s' => digits s' 0%Z NoDigit
  | _ => digits s 0%Z NoDigit
  end.

Fixpoint lstrip (s : string) : string :=
  match s with
  | String c s' => if is_space c then lstrip s' else s
  | EmptyString => s
  end.

(** [int(x)] for [x] a [str] of ASCII characters, or [None]. *)
Definition int (x : option string) : result Z :=
  match x with
  | None => Raise TypeError
  | Some s =>
      match signed (lstrip s) with
      | Some z => Return z
      | None => Raise ValueError
      end
  end.

End PyInt.

(** ** XML elements, as [xml.etree.ElementTree] presents them *)

Module xee.

(** An [Element]: its tag in Clark notation ([{namespace}local]), its
    attribute dict, its text ([None] when the element has none) and its
    children in document order. *)
#[warnings="-register-all"]
Inductive Element : Type :=
  mkElement {
    tag : string;
    attrib : gmap string string;
    text : option string;
    children : list Element
  }.

(** [parent.find(path)] for a path that is one qualified tag: the first
    direct child with that tag, or [None]. *)
Definition find (parent : Element) (path : string) : option Element :=
  List.find (λ child, String.eqb (tag child) path) (children parent).

(** [parent.findall(path)]: all direct children with that tag, in document
    order. *)
Definition findall (parent : Element) (path : string) : list Element :=
  List.filter (λ child, String.eqb (tag child) path) (children parent).

(** [elem.get(key)]. *)
Definition get (elem : Element) (key : string) : option string :=
  attrib elem !! key.

End xee.

(** ** Search results *)

Module sr.

(** Modelled from the spec: [SearchResult] ([src/utility/search_result.py])
    is not part of the sources at hand; it is taken to be the record of the
    keyword arguments it is built from at lines 118-119. *)
Record SearchResult : Type := mkSearchResult {
  title : option string;
  id : string;
  abstract : option string;
  authors : list (option string);
  pdf_url : option string;
  publish : option string;
  keywords : gset string
}.

End sr.

(** ** HTTP responses, as [requests] presents them *)

Module r.

Record Response : Type := mkResponse {
  status_code : Z;
  text : string
}.

(** [response.ok]: [raise_for_status] raises for 4xx and 5xx codes. *)
Definition ok (response : Response) : bool :=
  negb ((400 <=? status_code response)%Z && (status_code response <? 600)%Z).

End r.

(** ** The retrieval state *)

(** What a retrieval can read or change: the query object [self] and the log
    of the URLs requested so far, oldest first. *)
Record World : Type := mkWorld {
  self : SearchQuery;
  sent : list string
}.

(** Computations over the world that may raise. The world survives a raise. *)
Definition M (A : Type) : Type := World → result A * World.

#[global] Instance M_ret : MRet M := λ A a w, (Return a, w).
#[global] Instance M_bind : MBind M := λ A B f m w,
  match m w with
  | (Raise e, w') => (Raise e, w')
  | (Return a, w') => f a w'
  end.

(** A pure computation inside [M]. *)
Definition lift {A} (x : result A) : M A := λ w, (x, w).

(** [self.field]. *)
Definition self_attr {A} (field : SearchQuery → A) : M A :=
  λ w, (Return (field (self w)), w).

(** A page batch: [list(enumerate(search_results))]. *)
Definition batch : Type := list (nat * sr.SearchResult).

Definition enumerate {A} (l : list A) : list (nat * A) :=
  zip (seq 0 (length l)) l.

(** The generator object of [retrieve_valid_search_results]: not yet started
    (holding its arguments), suspended at the [yield] (holding its locals),
    or finished. *)
Inductive generator : Type :=
  | GenCreated (start space end_ : Z)
  | GenSuspended (start space end_ count : Z)
  | GenClosed.

(** What [retrieve_search_results] returns: the page generator, or the text
    that [parse_error] extracted. *)
Inductive retrieval : Type :=
  | Pages (g : generator)
  | Message (msg : option string).

Section Retrieval.

(** [xml.etree.ElementTree.fromstring]: the tree of a well-formed
    document, [None] where the library raises [ParseError]. *)
Variable fromstring : string → option xee.Element.

(** The remote service behind [requests.get]: given the URLs requested so
    far and the URL requested now, a response or a failure. *)
Variable service : list string → string → result r.Response.

Definition get_xml_tree (text : string) : result xee.Element :=
  match fromstring text with
  | None => Raise ParseError
  | Some root => Return root
  end.

Definition get_atom_child (parent : xee.Element) (tag : string) : option xee.Element :=
  xee.find parent (XML_ATOM_ROOT +:+ tag).

Definition get_atom_child_text (parent : xee.Element) (tag : string) : result (option string) :=
  child ← deref (get_atom_child parent tag);
  mret (xee.text child).

Definition get_atom_children (parent : xee.Element) (tag : string) : list xee.Element :=
  xee.findall parent (XML_ATOM_ROOT +:+ tag).

Definition get_open_search_child (parent : xee.Element) (tag : string) : option xee.Element :=
  xee.find parent (XML_OPEN_SEARCH_ROOT +:+ tag).

(** Lines 110-114: the [for] loop with its [break]. *)
Fixpoint pdf_link_loop (links : list xee.Element) : option string :=
  match links with
  | [] => None
  | link :: rest =>
      match xee.get link "title" with
      | Some t =>
          if PyStr.truthy t then xee.get link "href" else pdf_link_loop rest
      | None => pdf_link_loop rest
      end
  end.

(** The element expression of the comprehension at line 116. *)
Definition author_name (author : xee.Element) : result (option string) :=
  name ← deref (get_atom_child author "name");
  mret (xee.text name).

(** Lines 97-119: the body of the loop over the entries.  A list is truthy
    when it is not empty, and [updated_dates[-1]] is then its last element. *)
Definition parse_entry (entry : xee.Element) : result sr.SearchResult :=
  title ← get_atom_child_text entry "title";
  arxiv_id ← get_atom_child_text entry "id";
  arxiv_id ← deref arxiv_id;
  let arxiv_id :=
    if PyStr.startswith arxiv_id BASE_ARXIV_URL
    then PyStr.slice_from (String.length BASE_ARXIV_URL) arxiv_id
    else arxiv_id in
  abstract ← get_atom_child_text entry "summary";
  date ← get_atom_child_text entry "published";
  let updated_dates := get_atom_children entry "updated" in
  let date :=
    match last updated_dates with
    | Some updated => xee.text updated
    | None => date
    end in
  let pdf_link := pdf_link_loop (get_atom_children entry "link") in
  authors ← mapM author_name (get_atom_children entry "author");
  mret {| sr.title := title; sr.id := arxiv_id; sr.abstract := abstract;
          sr.authors := authors; sr.pdf_url := pdf_link; sr.publish := date;
          sr.keywords := ∅ |}.

Definition parse_valid_response (xml_response : string) : result (list sr.SearchResult) :=
  root ← get_xml_tree xml_response;
  mapM parse_entry (get_atom_children root "entry").

Definition parse_error (error_msg : string) : result (option string) :=
  root ← get_xml_tree error_msg;
  entry ← deref (get_atom_child root "entry");
  summary ← deref (get_atom_child entry "summary");
  mret (xee.text summary).

(** [requests.get(url)]. *)
Definition requests_get (url : string) : M r.Response :=
  λ w, (service (sent w) url, {| self := self w; sent := sent w ++ [url] |}).

(** The URL of line 52; [f'{n}'] of an [int] is its decimal numeral. *)
Definition limited_url (q : string) (start space : Z) : string :=
  q +:+ "&start=" +:+ pretty start +:+ "&max_result=" +:+ pretty space.

Definition get_response_with_limited_query (start space : Z) : M r.Response :=
  q ← self_attr query;
  requests_get (limited_url q start space).

Definition get_response_with_starting_query : M r.Response :=
  st ← self_attr start;
  mr ← self_attr max_result;
  get_response_with_limited_query st mr.

(** Lines 72-74: one pass through the loop body, up to the [yield]. *)
Definition fetch_page (start space end_ count : Z) : M (option batch * generator) :=
  response ← get_response_with_limited_query start space;
  search_results ← lift (parse_valid_response (r.text response));
  let count := (count + Z.of_nat (length search_results))%Z in
  mret (Some (enumerate search_results), GenSuspended start space end_ count).

(** [next(g)] on the generator of [retrieve_valid_search_results]: the
    batch yielded and the generator as it is left, or no batch when the
    generator returns ([StopIteration]). *)
Definition next (g : generator) : M (option batch * generator) :=
  match g with
  | GenCreated start space end_ => fetch_page start space end_ 0
  | GenSuspended start space end_ count =>
      let start := (start + space)%Z in
      if (start >? end_)%Z then mret (None, GenClosed)
      else fetch_page start space end_ count
  | GenClosed => mret (None, GenClosed)
  end.

(** Calling the generator function runs none of its body. *)
Definition retrieve_valid_search_results (start space end_ : Z) : generator :=
  GenCreated start space end_.

Definition retrieve_search_results : M retrieval :=
  response ← get_response_with_starting_query;
  if r.ok response then
    root ← lift (get_xml_tree (r.text response));
    total ← lift (deref (get_open_search_child root "totalResults"));
    total_results ← lift (PyInt.int (xee.text total));
    st ← self_attr start;
    mr ← self_attr max_result;
    mret (Pages (retrieve_valid_search_results st mr total_results))
  else
    msg ← lift (parse_error (r.text response));
    mret (Message msg).

(** [list(g)]: pulling until the generator returns, with at most [fuel]
    calls of [next]; [None] when the fuel did not suffice. *)
Fixpoint drain (fuel : nat) (g : generator) : M (option (list batch)) :=
  match fuel with
  | O => mret None
  | S fuel' =>
      step ← next g;
      match step with
      | (None, _) => mret (Some [])
      | (Some b, g') =>
          more ← drain fuel' g';
          mret (cons b <$> more)
      end
  end.

End Retrieval.

(** ** Vocabulary for the statements *)

(** The text of the first Atom child [tag] of [parent]; [None] when there is
    no such child or when it has no text. *)
Definition child_text (parent : xee.Element) (tag : string) : option string :=
  get_atom_child parent tag ≫= xee.text.

(** The elements the loop body dereferences are there: a [title], an [id]
    with text, a [summary], a [published], and a [name] in every [author]. *)
Definition well_shaped (entry : xee.Element) : bool :=
  bool_decide (is_Some (get_atom_child entry "title"))
  && bool_decide (is_Some (child_text entry "id"))
  && bool_decide (is_Some (get_atom_child entry "summary"))
  && bool_decide (is_Some (get_atom_child entry "published"))
  && forallb (λ author, bool_decide (is_Some (get_atom_child author "name")))
             (get_atom_children entry "author").

(** The world after one more request. *)
Definition after_request (w : World) (url : string) : World :=
  {| self := self w; sent := sent w ++ [url] |}.

(** A link whose [title] attribute is present and not empty. *)
Definition titled (link : xee.Element) : Prop :=
  ∃ t, xee.get link "title" = Some t ∧ t ≠ "".

(** ** Sample documents *)

Module Samples.

Definition atom (local : string) (attrs : gmap string string)
    (text : option string) (children : list xee.Element) : xee.Element :=
  xee.mkElement (XML_ATOM_ROOT +:+ local) attrs text children.

Definition leaf (local text : string) : xee.Element :=
  atom local ∅ (Some text) [].

(** A feed of 25 results with a page of two entries. *)
Definition feed_text : string :=
  "<feed xmlns='http://www.w3.org/2005/Atom' xmlns:opensearch='http://a9.com/-/spec/opensearch/1.1/'><opensearch:totalResults>25</opensearch:totalResults><entry><id>http://arxiv.org/abs/1234.5678v2</id><updated>2020-02-02T00:00:00Z</updated><published>2020-01-01T00:00:00Z</published><title>Deep nets</title><summary>We study nets.</summary><author><name>A. Author</name></author><link href='http://arxiv.org/abs/1234.5678v2' rel='alternate'/><link title='pdf' href='http://arxiv.org/pdf/1234.5678v2'/></entry><entry><id>oai:arXiv.org:0704.0001</id><published>2007-04-01T00:00:00Z</published><title>Old paper</title><summary/></entry></feed>".

Definition first_entry : xee.Element :=
  atom "entry" ∅ None
    [ leaf "id" "http://arxiv.org/abs/1234.5678v2";
      leaf "updated" "2020-02-02T00:00:00Z";
      leaf "published" "2020-01-01T00:00:00Z";
      leaf "title" "Deep nets";
      leaf "summary" "We study nets.";
      atom "author" ∅ None [ leaf "name" "A. Author" ];
      atom "link" {[ "href" := "http://arxiv.org/abs/1234.5678v2";
                     "rel" := "alternate" ]} None [];
      atom "link" {[ "title" := "pdf";
                     "href" := "http://arxiv.org/pdf/1234.5678v2" ]} None [] ].

Definition second_entry : xee.Element :=
  atom "entry" ∅ None
    [ leaf "id" "oai:arXiv.org:0704.0001";
      leaf "published" "2007-04-01T00:00:00Z";
      leaf "title" "Old paper";
      atom "summary" ∅ None [] ].

Definition feed_tree : xee.Element :=
  atom "feed" ∅ None
    [ xee.mkElement (XML_OPEN_SEARCH_ROOT +:+ "totalResults") ∅ (Some "25") [];
      first_entry; second_entry ].

(** The envelope the service sends for a query it rejects. *)
Definition error_text : string :=
  "<feed xmlns='http://www.w3.org/2005/Atom'><entry><id>http://arxiv.org/api/errors#incorrect_id_format_for_x</id><title>Error</title><summary>Invalid id list</summary></entry></feed>".

Definition error_tree : xee.Element :=
  atom "feed" ∅ None
    [ atom "entry" ∅ None
        [ leaf "id" "http://arxiv.org/api/errors#incorrect_id_format_for_x";
          leaf "title" "Error";
          leaf "summary" "Invalid id list" ] ].

(** A well-formed feed whose only entry has no [title] element. *)
Definition untitled_text : string :=
  "<feed xmlns='http://www.w3.org/2005/Atom'><entry><id>http://arxiv.org/abs/1234.5678v2</id><published>2020-01-01T00:00:00Z</published><summary>We study nets.</summary></entry></feed>".

Definition untitled_tree : xee.Element :=
  atom "feed" ∅ None
    [ atom "entry" ∅ None
        [ leaf "id" "http://arxiv.org/abs/1234.5678v2";
          leaf "published" "2020-01-01T00:00:00Z";
          leaf "summary" "We study nets." ] ].

(** A document cut off in the middle. *)
Definition truncated_text : string :=
  "<feed xmlns='http://www.w3.org/2005/Atom'><entry><id>http://arxiv.org/abs/12".

(** What [fromstring] returns on the sample documents: their trees, and
    [None] for the truncated one.  It stands for the library on these texts
    only; any other text is answered like the truncated one. *)
Definition fromstring (text : string) : option xee.Element :=
  if String.eqb text feed_text then Some feed_tree
  else if String.eqb text error_text then Some error_tree
  else if String.eqb text untitled_text then Some untitled_tree
  else None.

(** A service that answers every request with the sample feed. *)
Definition feed_service (history : list string) (url : string) : result r.Response :=
  Return {| r.status_code := 200; r.text := feed_text |}.

(** A service that rejects every request with the error envelope. *)
Definition rejecting_service (history : list string) (url : string) : result r.Response :=
  Return {| r.status_code := 400; r.text := error_text |}.

(** A service that sends the error envelope under a success status. *)
Definition misflagging_service (history : list string) (url : string) : result r.Response :=
  Return {| r.status_code := 200; r.text := error_text |}.

Definition deep_query : SearchQuery := __init__ ["deep"] [] [] [] 10 0.

End Samples.

(** ** The shell ([src/arxives.py]) *)

Module arxives.

(** The members of the enum [UserOptions], and their values (lines 19-22). *)
Inductive UserOptions : Type := SEARCH | SUGGEST | SAVED | EXIT.

Definition value (member : UserOptions) : string :=
  match member with
  | SEARCH => "search"
  | SUGGEST => "suggest"
  | SAVED => "saved"
  | EXIT => "exit"
  end.

(** What the shell sees raised: the [ValueError]s it raises itself, with
    their message; the [SystemExit] of [sys.exit()]; and whatever a
    collaborator raises, of which the shell uses whether it derives from
    [Exception] and what [print] shows of it. *)
Inductive raised : Type :=
  | ValueError (msg : string)
  | SystemExit
  | Foreign (derives_from_Exception : bool) (shown : string).

(** Whether [except Exception] catches it. *)
Definition is_Exception (e : raised) : bool :=
  match e with
  | ValueError _ => true
  | SystemExit => false
  | Foreign derives _ => derives
  end.

(** What [print(e)] writes. *)
Definition shown (e : raised) : string :=
  match e with
  | ValueError msg => msg
  | SystemExit => ""
  | Foreign _ text => text
  end.

(** [s.split(' ')]: the pieces between single spaces, empty pieces kept. *)
Fixpoint split_on_space (s : string) : list string :=
  match s with
  | EmptyString => [""]
  | String c rest =>
      if Ascii.eqb c " " then "" :: split_on_space rest
      else match split_on_space rest with
           | piece :: pieces => String c piece :: pieces
           | [] => [String c ""]
           end
  end.

(** The number of spaces in [s]. *)
Fixpoint spaces (s : string) : nat :=
  match s with
  | EmptyString => 0
  | String c rest => (if Ascii.eqb c " " then 1 else 0) + spaces rest
  end.

Section Shell.

(** The state of everything outside the shell: terminal, database, modes. *)
Variable State : Type.

(** [mode == member], as the base class [CmdEnum] ([src/utility/cmd_enum.py],
    not part of the sources at hand) decides it. *)
Variable equals : string → UserOptions → bool.

(** The modes ([modes/*.py], not part of the sources at hand): each returns
    or raises, and leaves the state as it likes. *)
Variables view_mode search_mode suggest_mode : State → option raised * State.

(** [ldb.load_db_info(CONFIG_PATH)]. *)
Variable load_db_info : State → option raised * State.

(** [input(prompt)]: the line read, or what it raises (at end of input,
    [EOFError]); the prompt is built from [UserOptions.values_as_str()],
    which is [CmdEnum]'s. *)
Variable input : State → (raised + string) * State.

(** [print(e)], with the text that [str(e)] gives: it returns, or raises
    (a closed pipe, a text the terminal cannot encode). *)
Variable print : string → State → option raised * State.

(** A call of a mode followed by [return member]. *)
Definition run_mode (mode_function : State → option raised * State)
    (member : UserOptions) (s : State) : (raised + UserOptions) * State :=
  match mode_function s with
  | (Some e, s') => (inl e, s')
  | (None, s') => (inr member, s')
  end.

(** [UserOptions.execute_params]. *)
Definition execute_params (params : list string) (s : State)
    : (raised + UserOptions) * State :=
  if negb (truthy_list params) || (1 <? length params)%nat then
    (inl (ValueError "only require command name to select a mode"), s)
  else
    match params with
    | mode :: _ =>
        if equals mode SAVED then run_mode view_mode SAVED s
        else if equals mode SEARCH then run_mode search_mode SEARCH s
        else if equals mode SUGGEST then run_mode suggest_mode SUGGEST s
        else if equals mode EXIT then (inl SystemExit, s)
        else (inl (ValueError (mode +:+ " is not a supported mode")), s)
    | [] => (inl (Foreign true "list index out of range"), s)
    end.

(** The [except Exception as e] clause of [main]: [None] when the loop goes
    on. What does not derive from [Exception] is not caught; what [print]
    raises inside the clause is not caught either and leaves [main]. *)
Definition handle (sys_mode : string) (e : raised) (s : State) : option raised * State :=
  if is_Exception e then
    if String.eqb sys_mode "prod" then print (shown e) s
    else (Some e, s)
  else (Some e, s).

(** One pass through the body of [while True]. *)
Definition iteration (sys_mode : string) (s : State) : option raised * State :=
  match input s with
  | (inl e, s1) => handle sys_mode e s1
  | (inr line, s1) =>
      match execute_params (split_on_space line) s1 with
      | (inl e, s2) => handle sys_mode e s2
      | (inr _, s2) => (None, s2)
      end
  end.

(** At most [fuel] passes of the loop: what ended it, or [None] when it is
    still running. *)
Fixpoint loop (fuel : nat) (sys_mode : string) (s : State) : option raised * State :=
  match fuel with
  | O => (None, s)
  | S fuel' =>
      match iteration sys_mode s with
      | (Some e, s') => (Some e, s')
      | (None, s') => loop fuel' sys_mode s'
      end
  end.

(** [main], with at most [fuel] passes of its loop. *)
Definition main (fuel : nat) (sys_mode : string) (s : State) : option raised * State :=
  if negb (String.eqb sys_mode "prod" || String.eqb sys_mode "dev") then
    (Some (ValueError (sys_mode +:+ " is an unsupported system mode")), s)
  else
    match load_db_info s with
    | (Some e, s') => (Some e, s')
    | (None, s') => loop fuel sys_mode s'
    end.

End Shell.

(** A terminal for trying the shell: the lines still to be read, what was
    printed, and the modes that ran. *)
Record Terminal : Type := mkTerminal {
  lines : list string;
  printed : list string;
  ran : list UserOptions
}.

Definition terminal_input (t : Terminal) : (raised + string) * Terminal :=
  match lines t with
  | [] => (inl (Foreign true "EOF when reading a line"), t)
  | line :: rest => (inr line, {| lines := rest; printed := printed t; ran := ran t |})
  end.

Definition terminal_print (text : string) (t : Terminal) : option raised * Terminal :=
  (None, {| lines := lines t; printed := printed t ++ [text]; ran := ran t |}).

(** A terminal whose output is a pipe that the reader has closed. *)
Definition closed_pipe_print (text : string) (t : Terminal) : option raised * Terminal :=
  (Some (Foreign true "[Errno 32] Broken pipe"), t).

Definition terminal_mode (member : UserOptions) (t : Terminal) : option raised * Terminal :=
  (None, {| lines := lines t; printed := printed t; ran := ran t ++ [member] |}).

Definition terminal_load (t : Terminal) : option raised * Terminal := (None, t).

(** The comparison of an enum that mixes in [str]: by value. *)
Definition value_equals (mode : string) (member : UserOptions) : bool :=
  String.eqb mode (value member).

End arxives.

(** * Properties *)

(** ** The model on concrete inputs *)

Example render_title_terms :
  __str__ (__init__ ["learning"; "reinforcement"; "deep"; "replay"] [] [] [] 10 0)
  = "http://export.arxiv.org/api/query/?search_query=ti:learning+AND+ti:reinforcement+AND+ti:deep+AND+ti:replay".
Proof. reflexivity. Qed.

Example render_all_groups :
  __str__ (__init__ ["deep"] ["lecun"] ["nets"] ["1234.5678"; "2345.6789"] 10 0)
  = "http://export.arxiv.org/api/query/?search_query=ti:deep+AND+au:lecun+AND+abs:netsid_list=1234.5678,2345.6789".
Proof. reflexivity. Qed.

Example render_no_terms :
  __str__ (__init__ [] [] [] [] 10 0) = "http://export.arxiv.org/api/query/?".
Proof. reflexivity. Qed.

Example limited_url_of_window :
  limited_url "http://export.arxiv.org/api/query/?id_list=1234.5678" 20 10
  = "http://export.arxiv.org/api/query/?id_list=1234.5678&start=20&max_result=10".
Proof. reflexivity. Qed.

Example int_of_texts :
  PyInt.int (Some "25") = Return 25%Z
  ∧ PyInt.int (Some " -1_000 ") = Return (-1000)%Z
  ∧ PyInt.int (Some "1__0") = Raise ValueError
  ∧ PyInt.int (Some "") = Raise ValueError
  ∧ PyInt.int None = Raise TypeError.
Proof. by repeat split. Qed.

Example ok_of_status :
  r.ok {| r.status_code := 200; r.text := "" |} = true
  ∧ r.ok {| r.status_code := 400; r.text := "" |} = false
  ∧ r.ok {| r.status_code := 503; r.text := "" |} = false.
Proof. by repeat split. Qed.

Example parse_sample_feed :
  parse_valid_response Samples.fromstring Samples.feed_text
  = Return
      [ {| sr.title := Some "Deep nets"; sr.id := "1234.5678v2";
           sr.abstract := Some "We study nets."; sr.authors := [Some "A. Author"];
           sr.pdf_url := Some "http://arxiv.org/pdf/1234.5678v2";
           sr.publish := Some "2020-02-02T00:00:00Z"; sr.keywords := ∅ |};
        {| sr.title := Some "Old paper"; sr.id := "oai:arXiv.org:0704.0001";
           sr.abstract := None; sr.authors := [];
           sr.pdf_url := None;
           sr.publish := Some "2007-04-01T00:00:00Z"; sr.keywords := ∅ |} ].
Proof. by vm_compute. Qed.

Example parse_truncated_feed :
  parse_valid_response Samples.fromstring Samples.truncated_text = Raise ParseError.
Proof. reflexivity. Qed.

(** ** Strings *)

Section StringFacts.

Lemma append_cons a s t : String a s +:+ t = String a (s +:+ t).
Proof. reflexivity. Qed.

Lemma append_assoc s t u : (s +:+ t) +:+ u = s +:+ (t +:+ u).
Proof. induction s as [|a s IH]; [done|]. by rewrite !append_cons, IH. Qed.

Lemma prefix_cons a b n s :
  String.prefix (String a n) (String b s)
  = if ascii_dec a b then String.prefix n s else false.
Proof. reflexivity. Qed.

Lemma prefix_empty_l s : String.prefix "" s = true.
Proof. by destruct s. Qed.

(** A needle without the character [c] cannot reach across a [c]. *)
Lemma prefix_cut c n x y :
  PyStr.has_char c n = false →
  String.prefix n (x +:+ String c y) = String.prefix n x.
Proof.
  revert x. induction n as [|a n IH]; intros x Hc.
  { by destruct x. }
  simpl in Hc. apply orb_false_iff in Hc as [Hac Hn].
  destruct x as [|b x].
  - change ("" +:+ String c y) with (String c y).
    rewrite prefix_cons. destruct (ascii_dec a c) as [->|]; [|done].
    by rewrite Ascii.eqb_refl in Hac.
  - rewrite append_cons, !prefix_cons. destruct (ascii_dec a b); auto.
Qed.

Lemma contains_cons n b h :
  PyStr.contains n (String b h) = String.prefix n (String b h) || PyStr.contains n h.
Proof. reflexivity. Qed.

Lemma contains_empty n : PyStr.contains n "" = String.prefix n "".
Proof. unfold PyStr.contains. apply orb_false_r. Qed.

Lemma contains_cut c n x y :
  PyStr.has_char c n = false →
  PyStr.contains n (x +:+ String c y) = PyStr.contains n x || PyStr.contains n y.
Proof.
  intros Hc. induction x as [|b x IH].
  - change ("" +:+ String c y) with (String c y).
    rewrite contains_cons, contains_empty.
    by rewrite <-(prefix_cut c n "" y Hc).
  - rewrite append_cons, !contains_cons, IH.
    rewrite <-(append_cons b x (String c y)), (prefix_cut c n _ y Hc).
    by rewrite !orb_assoc.
Qed.

(** A needle that ends in [c] and has no other [c] can only end at a [c]. *)
Lemma prefix_cut_last c n0 x y :
  PyStr.has_char c n0 = false →
  String.prefix (n0 +:+ String c "") (x +:+ String c y)
  = String.prefix (n0 +:+ String c "") (x +:+ String c "").
Proof.
  revert x. induction n0 as [|a n0 IH]; intros x Hc.
  - change ("" +:+ String c "") with (String c "").
    destruct x as [|b x].
    + change ("" +:+ String c ?z) with (String c z). rewrite !prefix_cons.
      destruct (ascii_dec c c); [|done]. by rewrite !prefix_empty_l.
    + rewrite !append_cons, !prefix_cons.
      destruct (ascii_dec c b); [|done]. by rewrite !prefix_empty_l.
  - simpl in Hc. apply orb_false_iff in Hc as [Hac Hn].
    rewrite (append_cons a n0). destruct x as [|b x].
    + change ("" +:+ String c ?z) with (String c z). rewrite !prefix_cons.
      destruct (ascii_dec a c) as [->|]; [|done].
      by rewrite Ascii.eqb_refl in Hac.
    + rewrite !(append_cons b x), !prefix_cons. destruct (ascii_dec a b); auto.
Qed.

Lemma contains_cut_last c n0 x y :
  PyStr.has_char c n0 = false →
  PyStr.contains (n0 +:+ String c "") (x +:+ String c y)
  = PyStr.contains (n0 +:+ String c "") (x +:+ String c "")
    || PyStr.contains (n0 +:+ String c "") y.
Proof.
  intros Hc. induction x as [|b x IH].
  - change ("" +:+ String c ?z) with (String c z).
    rewrite !contains_cons, contains_empty.
    pose proof (prefix_cut_last c n0 "" y Hc) as H.
    change ("" +:+ String c ?z) with (String c z) in H. rewrite H.
    assert (String.prefix (n0 +:+ String c "") "" = false) as ->
      by (by destruct n0).
    by rewrite orb_false_r.
  - rewrite !(append_cons b x), !contains_cons, IH.
    rewrite <-!(append_cons b x), (prefix_cut_last c n0 _ y Hc).
    by rewrite !orb_assoc.
Qed.

Lemma join_cons sep x y l :
  PyStr.join sep (x :: y :: l) = x +:+ sep +:+ PyStr.join sep (y :: l).
Proof. reflexivity. Qed.

Lemma join_snoc sep l x :
  ∃ front, PyStr.join sep (l ++ [x]) = front +:+ x.
Proof.
  induction l as [|y l [front IH]].
  - by exists "".
  - destruct l as [|z l].
    + exists (y +:+ sep). simpl. by rewrite append_assoc.
    + exists (y +:+ sep +:+ front).
      change ((y :: z :: l) ++ [x]) with (y :: z :: (l ++ [x])).
      rewrite join_cons. change (z :: (l ++ [x])) with ((z :: l) ++ [x]).
      by rewrite IH, !append_assoc.
Qed.

End StringFacts.

(** ** Query rendering *)

Section Rendering.

(** The tokens of the comprehension at lines 38-39, category by category. *)
Lemma formatted_params_list_eq title author abstract :
  formatted_params_list title author abstract
  = map (String.append "ti:") title ++ map (String.append "au:") author
    ++ map (String.append "abs:") abstract.
Proof.
  unfold formatted_params_list, format_code. simpl concat.
  by rewrite app_nil_r.
Qed.

Lemma formatted_params_list_nil title author abstract :
  formatted_params_list title author abstract = [] ↔ title ++ author ++ abstract = [].
Proof.
  rewrite formatted_params_list_eq.
  destruct title, author, abstract; simpl; split; intros; done.
Qed.

Lemma truthy_list_true {A} (l : list A) : l ≠ [] → truthy_list l = true.
Proof. by destruct l. Qed.

(** Tokens of the shape [code:term], joined by [+AND+] behind a prefix [p],
    leave no room for a needle that has neither [:] nor [+], occurs in no
    term and does not occur where a code meets what precedes it. *)
Lemma joined_tokens_free n (codes : list string) toks :
  PyStr.has_char ":" n = false →
  PyStr.has_char "+" n = false →
  Forall (λ code, PyStr.contains n ("AND+" +:+ code) = false) codes →
  Forall (λ tok, ∃ code term, tok = code +:+ String ":" term ∧ code ∈ codes
                              ∧ PyStr.contains n term = false) toks →
  toks ≠ [] →
  ∀ p, Forall (λ code, PyStr.contains n (p +:+ code) = false) codes →
  PyStr.contains n (p +:+ PyStr.join "+AND+" toks) = false.
Proof.
  intros Hcolon Hplus Hand. induction 1 as [|tok toks Htok Htoks IH]; [done|].
  intros _ p Hp. destruct Htok as (code & term & -> & Hcode & Hterm).
  assert (PyStr.contains n (p +:+ code) = false) as Hpc.
  { by eapply Forall_forall in Hp. }
  destruct toks as [|tok' toks].
  - change (PyStr.join "+AND+" [code +:+ String ":" term])
      with (code +:+ String ":" term).
    by rewrite <-append_assoc, contains_cut, Hpc, Hterm.
  - rewrite join_cons.
    change ("+AND+" +:+ ?s) with (String "+" ("AND+" +:+ s)).
    rewrite (append_assoc code), append_cons, <-(append_assoc p).
    rewrite contains_cut, Hpc, orb_false_l by done.
    rewrite contains_cut, Hterm, orb_false_l by done.
    by apply IH.
Qed.

Lemma joined_ids_free n ids :
  PyStr.has_char "," n = false →
  PyStr.truthy n = true →
  Forall (λ i, PyStr.contains n i = false) ids →
  PyStr.contains n (PyStr.join "," ids) = false.
Proof.
  intros Hcomma Hn. induction 1 as [|i ids Hi Hids IH].
  - by destruct n.
  - destruct ids as [|i' ids]; [done|].
    rewrite join_cons. change ("," +:+ ?s) with (String "," s).
    by rewrite contains_cut, Hi, IH.
Qed.

End Rendering.

(** C9. A query with free-text terms and id terms renders as the
    [search_query=] fragment followed at once by the [id_list=] fragment:
    no character stands between the last free-text token and [id_list=]. *)
Theorem mixed_query_abuts (title author abstract ids : list string) (mr st : Z) :
  title ++ author ++ abstract ≠ [] →
  ids ≠ [] →
  let tokens := map (String.append "ti:") title ++ map (String.append "au:") author
                ++ map (String.append "abs:") abstract in
  let q := __init__ title author abstract ids mr st in
  __str__ q = BASE_QUERY_URL
             +:+ ("search_query=" +:+ PyStr.join "+AND+" tokens)
             +:+ ("id_list=" +:+ PyStr.join "," ids)
  ∧ ∀ front token, tokens = front ++ [token] →
      ∃ before, __str__ q = before +:+ token +:+ "id_list=" +:+ PyStr.join "," ids.
Proof.
  intros Hfree Hids tokens q.
  assert (__str__ q = BASE_QUERY_URL
             +:+ ("search_query=" +:+ PyStr.join "+AND+" tokens)
             +:+ ("id_list=" +:+ PyStr.join "," ids)) as Hq.
  { unfold q, __str__, __init__, query, search_fragment, id_fragment.
    rewrite (truthy_list_true ids Hids), truthy_list_true
      by (by rewrite formatted_params_list_nil).
    by rewrite formatted_params_list_eq. }
  split; [done|]. intros front token Htok.
  destruct (join_snoc "+AND+" front token) as [pre Hpre].
  exists (BASE_QUERY_URL +:+ "search_query=" +:+ pre).
  by rewrite Hq, Htok, Hpre, !append_assoc.
Qed.

Lemma mixed_query_abuts_witness :
  ["deep"] ++ ["lecun"] ++ [] ≠ [] ∧ ["1234.5678"] ≠ [] ∧
  __str__ (__init__ ["deep"] ["lecun"] [] ["1234.5678"] 10 0)
  = "http://export.arxiv.org/api/query/?search_query=ti:deep+AND+au:lecunid_list=1234.5678".
Proof.
  split; [done|]. split; [done|].
  apply (mixed_query_abuts ["deep"] ["lecun"] [] ["1234.5678"] 10 0); done.
Defined.

(** C6, as the code has it. A query with free-text terms only renders as
    [search_query=] followed by one [code:term] token per term (codes [ti],
    [au], [abs]), the tokens joined by [+AND+] in title, author, abstract
    order, and nothing after them; the text [id_list=] does not occur in it
    as long as no term contains that text. *)
Theorem free_text_query_rendering (title author abstract : list string) (mr st : Z) :
  title ++ author ++ abstract ≠ [] →
  let tokens := map (String.append "ti:") title ++ map (String.append "au:") author
                ++ map (String.append "abs:") abstract in
  let q := __init__ title author abstract [] mr st in
  __str__ q = BASE_QUERY_URL +:+ "search_query=" +:+ PyStr.join "+AND+" tokens
  ∧ (Forall (λ term, PyStr.contains "id_list=" term = false)
            (title ++ author ++ abstract) →
     PyStr.contains "id_list=" (__str__ q) = false).
Proof.
  intros Hfree tokens q.
  assert (tokens ≠ []) as Htokens.
  { unfold tokens. rewrite <-formatted_params_list_eq.
    by rewrite formatted_params_list_nil. }
  assert (__str__ q = BASE_QUERY_URL +:+ "search_query=" +:+ PyStr.join "+AND+" tokens)
    as Hq.
  { unfold q, __str__, __init__, query, search_fragment, id_fragment.
    rewrite formatted_params_list_eq. fold tokens.
    rewrite (truthy_list_true tokens Htokens). simpl truthy_list.
    unfold combine_params. by rewrite andb_false_r. }
  split; [done|]. intros Hterms. rewrite Hq, <-append_assoc.
  apply (joined_tokens_free "id_list=" ["ti"; "au"; "abs"]); try done.
  - by repeat constructor.
  - apply Forall_app in Hterms as [Ht Hterms].
    apply Forall_app in Hterms as [Hau Habs].
    unfold tokens. rewrite !Forall_app, !Forall_map. repeat split.
    + eapply Forall_impl; [exact Ht|]. intros term Hterm.
      exists "ti", term. repeat split; [|done]. set_solver.
    + eapply Forall_impl; [exact Hau|]. intros term Hterm.
      exists "au", term. repeat split; [|done]. set_solver.
    + eapply Forall_impl; [exact Habs|]. intros term Hterm.
      exists "abs", term. repeat split; [|done]. set_solver.
  - by repeat constructor.
Qed.

Lemma free_text_query_rendering_witness :
  ["deep"; "replay"] ++ ["lecun"] ++ ["nets"] ≠ [] ∧
  Forall (λ term, PyStr.contains "id_list=" term = false)
         (["deep"; "replay"] ++ ["lecun"] ++ ["nets"]) ∧
  __str__ (__init__ ["deep"; "replay"] ["lecun"] ["nets"] [] 10 0)
  = "http://export.arxiv.org/api/query/?search_query=ti:deep+AND+ti:replay+AND+au:lecun+AND+abs:nets"
  ∧ PyStr.contains "id_list="
      (__str__ (__init__ ["deep"; "replay"] ["lecun"] ["nets"] [] 10 0)) = false.
Proof.
  assert (["deep"; "replay"] ++ ["lecun"] ++ ["nets"] ≠ []) as Hne by done.
  assert (Forall (λ term, PyStr.contains "id_list=" term = false)
                 (["deep"; "replay"] ++ ["lecun"] ++ ["nets"])) as Hall
    by (repeat constructor).
  destruct (free_text_query_rendering
              ["deep"; "replay"] ["lecun"] ["nets"] 10 0 Hne) as [Hq Hfree].
  exact (conj Hne (conj Hall (conj Hq (Hfree Hall)))).
Defined.

(** A title term is any string: one that holds the text [id_list=] puts that
    text into the rendering of a query without id terms. *)
Lemma free_text_query_may_hold_id_marker :
  let q := __init__ ["id_list=1"] [] [] [] 10 0 in
  id_args q = []
  ∧ __str__ q = "http://export.arxiv.org/api/query/?search_query=ti:id_list=1"
  ∧ PyStr.contains "id_list=" (__str__ q) = true.
Proof. by vm_compute. Qed.

(** C7, as the code has it. A query with id terms only renders as [id_list=]
    followed by the ids joined by commas; the text [search_query=] does not
    occur in it as long as no id contains that text. *)
Theorem id_only_query_rendering (ids : list string) (mr st : Z) :
  ids ≠ [] →
  let q := __init__ [] [] [] ids mr st in
  __str__ q = BASE_QUERY_URL +:+ "id_list=" +:+ PyStr.join "," ids
  ∧ (Forall (λ i, PyStr.contains "search_query=" i = false) ids →
     PyStr.contains "search_query=" (__str__ q) = false).
Proof.
  intros Hids q.
  assert (__str__ q = BASE_QUERY_URL +:+ "id_list=" +:+ PyStr.join "," ids) as Hq.
  { unfold q, __str__, __init__, query, search_fragment, id_fragment.
    by rewrite (truthy_list_true ids Hids). }
  split; [done|]. intros Hfree. rewrite Hq.
  pose proof (joined_ids_free "search_query=" ids eq_refl eq_refl Hfree) as Hjoin.
  revert Hjoin. generalize (PyStr.join "," ids). intros joined Hjoin.
  change (BASE_QUERY_URL +:+ "id_list=" +:+ joined)
    with ((BASE_QUERY_URL +:+ "id_list") +:+ String "=" joined).
  change "search_query=" with ("search_query" +:+ String "=" "") in *.
  by rewrite contains_cut_last, Hjoin.
Qed.

Lemma id_only_query_rendering_witness :
  ["1234.5678"; "2345.6789"] ≠ [] ∧
  Forall (λ i, PyStr.contains "search_query=" i = false) ["1234.5678"; "2345.6789"] ∧
  __str__ (__init__ [] [] [] ["1234.5678"; "2345.6789"] 10 0)
  = "http://export.arxiv.org/api/query/?id_list=1234.5678,2345.6789"
  ∧ PyStr.contains "search_query="
      (__str__ (__init__ [] [] [] ["1234.5678"; "2345.6789"] 10 0)) = false.
Proof.
  assert (["1234.5678"; "2345.6789"] ≠ []) as Hne by done.
  assert (Forall (λ i, PyStr.contains "search_query=" i = false)
                 ["1234.5678"; "2345.6789"]) as Hall by (repeat constructor).
  destruct (id_only_query_rendering ["1234.5678"; "2345.6789"] 10 0 Hne)
    as [Hq Hfree].
  exact (conj Hne (conj Hall (conj Hq (Hfree Hall)))).
Defined.

(** An id term is any string: one that holds the text [search_query=] puts
    that text into the rendering of a query without free-text terms. *)
Lemma id_only_query_may_hold_search_marker :
  let q := __init__ [] [] [] ["search_query=1"] 10 0 in
  title_args q ++ author_args q ++ abstract_args q = []
  ∧ __str__ q = "http://export.arxiv.org/api/query/?id_list=search_query=1"
  ∧ PyStr.contains "search_query=" (__str__ q) = true.
Proof. by vm_compute. Qed.

(** ** The feed parser *)

Section Parser.

Lemma deref_Some {A} (a : A) : deref (Some a) = Return a.
Proof. reflexivity. Qed.

Lemma bind_Raise {A B} e (f : A → result B) : Raise e ≫= f = Raise e.
Proof. reflexivity. Qed.

Lemma bind_Return {A B} a (f : A → result B) : Return a ≫= f = f a.
Proof. reflexivity. Qed.

Lemma mapM_cons {A B} (f : A → result B) x l :
  mapM f (x :: l) = y ← f x; k ← mapM f l; mret (y :: k).
Proof. reflexivity. Qed.

Lemma mapM_Return {A B} (f : A → result B) l ys :
  mapM f l = Return ys ↔ Forall2 (λ x y, f x = Return y) l ys.
Proof.
  revert ys. induction l as [|x l IH]; intros ys.
  - split.
    + intros [= <-]. constructor.
    + by inversion 1.
  - rewrite mapM_cons. destruct (f x) as [e|y] eqn:Hx.
    { rewrite bind_Raise. split; [done|]. inversion 1; congruence. }
    rewrite bind_Return. destruct (mapM f l) as [e|k] eqn:Hl.
    { rewrite bind_Raise. split; [done|].
      inversion 1 as [|? y' ? k' Hy Hk]; subst. apply IH in Hk. congruence. }
    rewrite bind_Return. split.
    + intros [= <-]. constructor; [done|]. by apply IH.
    + inversion 1 as [|? y' ? k' Hy Hk]; subst.
      apply IH in Hk. unfold mret, result_ret. congruence.
Qed.

(** What a successful pass through the loop body has found and built. *)
Lemma parse_entry_inv entry rec :
  parse_entry entry = Return rec →
  ∃ title_e id_e raw summary_e published_e,
    get_atom_child entry "title" = Some title_e
    ∧ get_atom_child entry "id" = Some id_e ∧ xee.text id_e = Some raw
    ∧ get_atom_child entry "summary" = Some summary_e
    ∧ get_atom_child entry "published" = Some published_e
    ∧ Forall2 (λ author name, author_name author = Return name)
              (get_atom_children entry "author") (sr.authors rec)
    ∧ sr.title rec = xee.text title_e
    ∧ sr.id rec = (if PyStr.startswith raw BASE_ARXIV_URL
                   then PyStr.slice_from (String.length BASE_ARXIV_URL) raw
                   else raw)
    ∧ sr.abstract rec = xee.text summary_e
    ∧ sr.publish rec = match last (get_atom_children entry "updated") with
                       | Some updated => xee.text updated
                       | None => xee.text published_e
                       end
    ∧ sr.pdf_url rec = pdf_link_loop (get_atom_children entry "link")
    ∧ sr.keywords rec = ∅.
Proof.
  unfold parse_entry, get_atom_child_text.
  destruct (get_atom_child entry "title") as [title_e|]; [|done].
  destruct (get_atom_child entry "id") as [id_e|]; [|done].
  simpl. destruct (xee.text id_e) as [raw|] eqn:Hraw; [|done].
  destruct (get_atom_child entry "summary") as [summary_e|]; [|done].
  destruct (get_atom_child entry "published") as [published_e|]; [|done].
  simpl.
  destruct (mapM author_name _) as [|names] eqn:Hnames; [done|].
  apply mapM_Return in Hnames. intros [= <-].
  exists title_e, id_e, raw, summary_e, published_e. by repeat split.
Qed.

Lemma author_name_cases author :
  (get_atom_child author "name" = None ∧ author_name author = Raise AttributeError)
  ∨ (∃ name_e, get_atom_child author "name" = Some name_e
               ∧ author_name author = Return (xee.text name_e)).
Proof.
  unfold author_name. destruct (get_atom_child author "name"); eauto.
Qed.

Lemma author_name_Return author name :
  author_name author = Return name → name = child_text author "name".
Proof.
  unfold child_text.
  destruct (author_name_cases author) as [[_ ->]|(name_e & -> & ->)]; [done|].
  by intros [= <-].
Qed.

Lemma author_names_cases authors :
  (forallb (λ author, bool_decide (is_Some (get_atom_child author "name"))) authors = true
   ∧ ∃ names, mapM author_name authors = Return names)
  ∨ (forallb (λ author, bool_decide (is_Some (get_atom_child author "name"))) authors = false
     ∧ mapM author_name authors = Raise AttributeError).
Proof.
  induction authors as [|author authors IH]; [left; eauto|].
  rewrite mapM_cons. cbn [forallb].
  destruct (author_name_cases author) as [[Hn ->]|(name_e & Hn & ->)]; rewrite Hn.
  - right. split; [|done]. rewrite bool_decide_eq_false_2; [done|].
    by intros [? ?].
  - rewrite bool_decide_eq_true_2 by eauto. rewrite bind_Return, andb_true_l.
    destruct IH as [[-> [names ->]]|[-> ->]]; [left|right]; eauto.
Qed.

(** The loop body succeeds exactly on well-shaped entries, and fails with
    [AttributeError] on the others. *)
Lemma parse_entry_cases entry :
  (well_shaped entry = true ∧ ∃ rec, parse_entry entry = Return rec)
  ∨ (well_shaped entry = false ∧ parse_entry entry = Raise AttributeError).
Proof.
  unfold well_shaped, child_text, parse_entry, get_atom_child_text.
  destruct (get_atom_child entry "title") as [title_e|]; [|by right].
  destruct (get_atom_child entry "id") as [id_e|]; simpl; [|by right].
  destruct (xee.text id_e) as [raw|]; simpl; [|by right].
  destruct (get_atom_child entry "summary") as [summary_e|]; simpl; [|by right].
  destruct (get_atom_child entry "published") as [published_e|]; simpl; [|by right].
  destruct (author_names_cases (get_atom_children entry "author"))
    as [[-> [names ->]]|[-> ->]]; [left|right]; eauto.
Qed.

Lemma parse_entries_cases entries :
  (forallb well_shaped entries = true ∧ ∃ recs, mapM parse_entry entries = Return recs)
  ∨ (forallb well_shaped entries = false
     ∧ mapM parse_entry entries = Raise AttributeError).
Proof.
  induction entries as [|entry entries IH]; [left; eauto|].
  rewrite mapM_cons. cbn [forallb].
  destruct (parse_entry_cases entry) as [[-> [rec ->]]|[-> ->]]; [|by right].
  rewrite bind_Return, andb_true_l.
  destruct IH as [[-> [recs ->]]|[-> ->]]; [left|right]; eauto.
Qed.

Lemma untitled_skip link rest :
  ¬ titled link → pdf_link_loop (link :: rest) = pdf_link_loop rest.
Proof.
  intros Hno. simpl. destruct (xee.get link "title") as [t|] eqn:Ht; [|done].
  destruct t; [done|]. destruct Hno. by eexists.
Qed.

Lemma pdf_link_loop_none links :
  Forall (λ link, ¬ titled link) links → pdf_link_loop links = None.
Proof.
  induction 1 as [|link links Hno _ IH]; [done|]. by rewrite untitled_skip.
Qed.

Lemma pdf_link_loop_first before link after :
  Forall (λ l, ¬ titled l) before → titled link →
  pdf_link_loop (before ++ link :: after) = xee.get link "href".
Proof.
  intros Hbefore (t & Ht & Hne).
  induction Hbefore as [|l before Hno _ IH].
  - simpl. rewrite Ht. by destruct t.
  - change ((l :: before) ++ link :: after) with (l :: (before ++ link :: after)).
    by rewrite untitled_skip.
Qed.

Lemma startswith_append p rest : PyStr.startswith (p +:+ rest) p = true.
Proof.
  unfold PyStr.startswith. induction p as [|a p IH]; [apply prefix_empty_l|].
  rewrite append_cons, prefix_cons. by destruct (ascii_dec a a).
Qed.

Lemma startswith_inv s p :
  PyStr.startswith s p = true → ∃ rest, s = p +:+ rest.
Proof.
  unfold PyStr.startswith. revert s. induction p as [|a p IH]; intros s.
  - by exists s.
  - destruct s as [|b s]; [done|]. rewrite prefix_cons.
    destruct (ascii_dec a b) as [->|]; [|done].
    intros [rest ->]%IH. by exists rest.
Qed.

Lemma slice_from_append p rest :
  PyStr.slice_from (String.length p) (p +:+ rest) = rest.
Proof. induction p as [|a p IH]; [by destruct rest|done]. Qed.

Lemma parse_valid_response_parsed fromstring xml root :
  fromstring xml = Some root →
  parse_valid_response fromstring xml
  = mapM parse_entry (get_atom_children root "entry").
Proof. intros H. unfold parse_valid_response, get_xml_tree. by rewrite H. Qed.

(** Every record of a parsed page comes from the entry at its position. *)
Lemma parse_valid_response_entries fromstring xml root recs :
  fromstring xml = Some root →
  parse_valid_response fromstring xml = Return recs →
  Forall2 (λ entry rec, parse_entry entry = Return rec)
          (get_atom_children root "entry") recs.
Proof.
  intros Hroot. rewrite (parse_valid_response_parsed _ _ _ Hroot).
  apply mapM_Return.
Qed.

End Parser.

(** C2, as the code has it. Parsing fails with [ParseError] (the
    specification's MalformedResponse) exactly when the text is not
    well-formed XML, and with nothing else then.  On well-formed text the
    parser succeeds when every entry is well shaped, handing on absent
    values: an empty title, summary, published or author name is [None] in
    the record, and an entry without links has no pdf url.  It fails with
    [AttributeError] when some entry lacks a title, id, summary or published
    element, has an id without text or an author without a name element. *)
Theorem parse_valid_response_failures (fromstring : string → option xee.Element)
    (xml : string) :
  (fromstring xml = None → parse_valid_response fromstring xml = Raise ParseError)
  ∧ (∀ root, fromstring xml = Some root →
       let entries := get_atom_children root "entry" in
       parse_valid_response fromstring xml ≠ Raise ParseError
       ∧ (forallb well_shaped entries = true →
          ∃ recs, parse_valid_response fromstring xml = Return recs
            ∧ Forall2 (λ entry rec,
                 sr.title rec = child_text entry "title"
                 ∧ sr.abstract rec = child_text entry "summary"
                 ∧ (get_atom_children entry "updated" = [] →
                    sr.publish rec = child_text entry "published")
                 ∧ (get_atom_children entry "link" = [] → sr.pdf_url rec = None)
                 ∧ sr.authors rec = map (λ author, child_text author "name")
                                        (get_atom_children entry "author"))
                entries recs)
       ∧ (forallb well_shaped entries = false →
          parse_valid_response fromstring xml = Raise AttributeError)).
Proof.
  split.
  { intros Hnone. unfold parse_valid_response, get_xml_tree. by rewrite Hnone. }
  intros root Hroot entries.
  rewrite (parse_valid_response_parsed _ _ _ Hroot). fold entries.
  destruct (parse_entries_cases entries) as [[Hshape [recs Hrecs]]|[Hshape Hfail]].
  - rewrite Hrecs, Hshape. split; [done|]. split; [|done]. intros _.
    exists recs. split; [done|]. apply mapM_Return in Hrecs.
    eapply Forall2_impl; [exact Hrecs|]. intros entry rec Hrec.
    apply parse_entry_inv in Hrec
      as (title_e & id_e & raw & summary_e & published_e & Ht & Hi & Hraw & Hs
          & Hp & Hauthors & -> & _ & -> & -> & -> & _).
    unfold child_text. rewrite Ht, Hs, Hp. repeat split.
    + by intros ->.
    + by intros ->.
    + revert Hauthors. generalize (sr.authors rec).
      induction (get_atom_children entry "author") as [|author authors IH];
        intros names; inversion 1 as [|? name ? names' Hname Hnames]; subst;
        [done|].
      simpl. f_equal; [|by apply IH]. by apply author_name_Return.
  - rewrite Hfail, Hshape. by repeat split.
Qed.

Lemma parse_valid_response_failures_witness :
  parse_valid_response Samples.fromstring Samples.truncated_text = Raise ParseError
  ∧ (∃ recs, parse_valid_response Samples.fromstring Samples.feed_text = Return recs
             ∧ sr.abstract <$> recs = [Some "We study nets."; None])
  ∧ parse_valid_response Samples.fromstring Samples.untitled_text
    = Raise AttributeError.
Proof.
  split; [|split].
  - by apply (parse_valid_response_failures Samples.fromstring Samples.truncated_text).
  - destruct (parse_valid_response_failures Samples.fromstring Samples.feed_text)
      as [_ Hwell].
    destruct (Hwell Samples.feed_tree eq_refl) as (_ & Hok & _).
    destruct (Hok eq_refl) as (recs & Hrecs & _).
    exists recs. split; [done|].
    assert (Return recs = parse_valid_response Samples.fromstring Samples.feed_text)
      as Heq by done.
    vm_compute in Heq. by injection Heq as ->.
  - destruct (parse_valid_response_failures Samples.fromstring Samples.untitled_text)
      as [_ Hwell].
    by apply (Hwell Samples.untitled_tree eq_refl).
Defined.

(** A well-formed feed whose entry has no title element is not parsed into a
    record with an absent title: the parse fails, with [AttributeError]. *)
Lemma missing_title_fails_the_parse :
  Samples.fromstring Samples.untitled_text = Some Samples.untitled_tree
  ∧ get_atom_child Samples.untitled_tree "entry" ≫= (λ entry, get_atom_child entry "title")
    = None
  ∧ parse_valid_response Samples.fromstring Samples.untitled_text
    = Raise AttributeError.
Proof. by vm_compute. Qed.

Section DocumentOrder.

(** [findall] keeps the children that carry the tag, in document order. *)
Lemma findall_filter parent path :
  xee.findall parent path
  = filter (λ child, xee.tag child = path) (xee.children parent).
Proof.
  unfold xee.findall.
  induction (xee.children parent) as [|child children IH]; [done|].
  cbn [List.filter]. rewrite filter_cons, IH.
  destruct (String.eqb_spec (xee.tag child) path); by case_decide.
Qed.

Lemma filter_none (path : string) (l : list xee.Element) :
  Forall (λ child, xee.tag child ≠ path) l →
  filter (λ child, xee.tag child = path) l = [].
Proof.
  induction 1 as [|child l Hne _ IH]; [done|]. by rewrite filter_cons_False.
Qed.

(** The last element with a tag, read off the list of children. *)
Lemma last_tagged (path : string) (before : list xee.Element) element after :
  xee.tag element = path →
  Forall (λ later, xee.tag later ≠ path) after →
  last (filter (λ child, xee.tag child = path) (before ++ element :: after))
  = Some element.
Proof.
  intros Htag Hafter.
  rewrite filter_app. rewrite filter_cons_True by exact Htag.
  rewrite (filter_none path after Hafter). apply last_snoc.
Qed.

(** The first element with a tag, read off the list of children. *)
Lemma find_tagged parent path (before : list xee.Element) element after :
  xee.children parent = before ++ element :: after →
  xee.tag element = path →
  Forall (λ earlier, xee.tag earlier ≠ path) before →
  xee.find parent path = Some element.
Proof.
  unfold xee.find. intros -> Htag Hbefore.
  induction Hbefore as [|earlier before Hne _ IH]; simpl.
  - by rewrite (proj2 (String.eqb_eq _ _) Htag).
  - by rewrite (proj2 (String.eqb_neq _ _) Hne).
Qed.

End DocumentOrder.

(** C4. In every record of a parsed page, one for each child of the feed
    with the tag [{http://www.w3.org/2005/Atom}entry] in document order,
    [publish] is the text of the last child of the entry with the tag
    [{http://www.w3.org/2005/Atom}updated] when the entry has such a child
    (so that of the only one when it has one), and the text of its first
    child with the tag [{http://www.w3.org/2005/Atom}published] when it has
    no [updated] child. *)
Theorem publish_is_last_updated_else_published
    (fromstring : string → option xee.Element) (xml : string)
    (root : xee.Element) (recs : list sr.SearchResult) :
  fromstring xml = Some root →
  parse_valid_response fromstring xml = Return recs →
  Forall2 (λ entry rec,
      (∀ before updated after,
         xee.children entry = before ++ updated :: after →
         xee.tag updated = "{http://www.w3.org/2005/Atom}updated" →
         Forall (λ later, xee.tag later ≠ "{http://www.w3.org/2005/Atom}updated")
                after →
         sr.publish rec = xee.text updated)
      ∧ (Forall (λ child, xee.tag child ≠ "{http://www.w3.org/2005/Atom}updated")
                (xee.children entry) →
         ∀ before published after,
           xee.children entry = before ++ published :: after →
           xee.tag published = "{http://www.w3.org/2005/Atom}published" →
           Forall (λ earlier,
                     xee.tag earlier ≠ "{http://www.w3.org/2005/Atom}published")
                  before →
           sr.publish rec = xee.text published))
    (filter (λ child, xee.tag child = "{http://www.w3.org/2005/Atom}entry")
            (xee.children root))
    recs.
Proof.
  intros Hroot Hrecs.
  pose proof (parse_valid_response_entries _ _ _ _ Hroot Hrecs) as Hall.
  unfold get_atom_children in Hall. rewrite findall_filter in Hall.
  eapply Forall2_impl; [exact Hall|].
  intros entry rec Hrec; simpl in Hrec.
  apply parse_entry_inv in Hrec
    as (title_e & id_e & raw & summary_e & published_e & _ & _ & _ & _
        & Hp & _ & _ & _ & _ & Hdate & _).
  unfold get_atom_children in Hdate. rewrite findall_filter in Hdate.
  split.
  - intros before updated after Hchildren Htag Hafter.
    rewrite Hdate, Hchildren.
    change (XML_ATOM_ROOT +:+ "updated")
      with "{http://www.w3.org/2005/Atom}updated".
    by rewrite last_tagged.
  - intros Hnone before published after Hchildren Htag Hbefore.
    rewrite Hdate.
    change (XML_ATOM_ROOT +:+ "updated")
      with "{http://www.w3.org/2005/Atom}updated".
    rewrite filter_none by done. cbn [last].
    unfold get_atom_child in Hp.
    change (XML_ATOM_ROOT +:+ "published")
      with "{http://www.w3.org/2005/Atom}published" in Hp.
    rewrite (find_tagged entry _ before published after Hchildren Htag Hbefore) in Hp.
    by injection Hp as <-.
Qed.

Lemma publish_is_last_updated_else_published_witness :
  Samples.fromstring Samples.feed_text = Some Samples.feed_tree
  ∧ ∃ first second,
      parse_valid_response Samples.fromstring Samples.feed_text = Return [first; second]
      ∧ sr.publish first = Some "2020-02-02T00:00:00Z"
      ∧ sr.publish second = Some "2007-04-01T00:00:00Z".
Proof.
  split; [done|].
  destruct (parse_valid_response Samples.fromstring Samples.feed_text)
    as [ex|recs] eqn:Hrecs; [by vm_compute in Hrecs|].
  pose proof (publish_is_last_updated_else_published
                Samples.fromstring Samples.feed_text Samples.feed_tree recs
                eq_refl Hrecs) as Hall.
  change (filter _ (xee.children Samples.feed_tree))
    with [Samples.first_entry; Samples.second_entry] in Hall.
  inversion Hall as [|? first ? rest [Hupdated _] Hrest]; subst.
  inversion Hrest as [|? second ? rest' [_ Hpublished] Hnil]; subst.
  inversion Hnil; subst.
  exists first, second. split; [done|]. split.
  - apply (Hupdated [Samples.leaf "id" "http://arxiv.org/abs/1234.5678v2"]
             (Samples.leaf "updated" "2020-02-02T00:00:00Z")
             (tail (tail (xee.children Samples.first_entry)))); [done|done|].
    repeat constructor; by vm_compute.
  - apply (Hpublished
             ltac:(repeat constructor; by vm_compute)
             [Samples.leaf "id" "oai:arXiv.org:0704.0001"]
             (Samples.leaf "published" "2007-04-01T00:00:00Z")
             (tail (tail (xee.children Samples.second_entry)))); [done|done|].
    repeat constructor; by vm_compute.
Defined.

(** C5. In every record of a parsed page, [pdf_url] is the [href] attribute
    of the first link element, in document order, whose [title] attribute is
    present and not empty, and is [None] when the entry has no such link. *)
Theorem pdf_url_is_first_titled_link
    (fromstring : string → option xee.Element) (xml : string)
    (root : xee.Element) (recs : list sr.SearchResult) :
  fromstring xml = Some root →
  parse_valid_response fromstring xml = Return recs →
  Forall2 (λ entry rec,
      (∀ before link after,
         get_atom_children entry "link" = before ++ link :: after →
         Forall (λ l, ¬ titled l) before → titled link →
         sr.pdf_url rec = xee.get link "href")
      ∧ (Forall (λ l, ¬ titled l) (get_atom_children entry "link") →
         sr.pdf_url rec = None))
    (get_atom_children root "entry") recs.
Proof.
  intros Hroot Hrecs.
  eapply Forall2_impl; [by eapply parse_valid_response_entries|].
  intros entry rec Hrec; simpl in Hrec.
  apply parse_entry_inv in Hrec
    as (title_e & id_e & raw & summary_e & published_e & _ & _ & _ & _
        & _ & _ & _ & _ & _ & _ & Hpdf & _).
  rewrite Hpdf. split.
  - intros before link after -> Hbefore Hlink. by apply pdf_link_loop_first.
  - apply pdf_link_loop_none.
Qed.

Lemma pdf_url_is_first_titled_link_witness :
  Samples.fromstring Samples.feed_text = Some Samples.feed_tree
  ∧ ∃ recs, parse_valid_response Samples.fromstring Samples.feed_text = Return recs
      ∧ sr.pdf_url <$> recs = [Some "http://arxiv.org/pdf/1234.5678v2"; None]
      ∧ Forall2 (λ entry rec,
            (∀ before link after,
               get_atom_children entry "link" = before ++ link :: after →
               Forall (λ l, ¬ titled l) before → titled link →
               sr.pdf_url rec = xee.get link "href")
            ∧ (Forall (λ l, ¬ titled l) (get_atom_children entry "link") →
               sr.pdf_url rec = None))
          (get_atom_children Samples.feed_tree "entry") recs.
Proof.
  split; [done|]. eexists. split; [by vm_compute|]. split; [done|].
  by apply (pdf_url_is_first_titled_link Samples.fromstring Samples.feed_text).
Defined.

(** C8. In every record of a parsed page, [id] is the text of the entry's id
    element without the prefix [http://arxiv.org/abs/] when the text starts
    with it, and that text unchanged otherwise. *)
Theorem id_is_stripped_of_base_url
    (fromstring : string → option xee.Element) (xml : string)
    (root : xee.Element) (recs : list sr.SearchResult) :
  fromstring xml = Some root →
  parse_valid_response fromstring xml = Return recs →
  Forall2 (λ entry rec,
      ∃ raw, child_text entry "id" = Some raw
        ∧ (∀ rest, raw = BASE_ARXIV_URL +:+ rest → sr.id rec = rest)
        ∧ ((∀ rest, raw ≠ BASE_ARXIV_URL +:+ rest) → sr.id rec = raw))
    (get_atom_children root "entry") recs.
Proof.
  intros Hroot Hrecs.
  eapply Forall2_impl; [by eapply parse_valid_response_entries|].
  intros entry rec Hrec; simpl in Hrec.
  apply parse_entry_inv in Hrec
    as (title_e & id_e & raw & summary_e & published_e & _ & Hid & Hraw & _
        & _ & _ & _ & Hrec & _).
  exists raw. unfold child_text. rewrite Hid. split; [done|].
  rewrite Hrec. split.
  - intros rest ->. by rewrite startswith_append, slice_from_append.
  - intros Hno. destruct (PyStr.startswith raw BASE_ARXIV_URL) eqn:Hstarts; [|done].
    apply startswith_inv in Hstarts as [rest ->]. by destruct (Hno rest).
Qed.

Lemma id_is_stripped_of_base_url_witness :
  Samples.fromstring Samples.feed_text = Some Samples.feed_tree
  ∧ ∃ recs, parse_valid_response Samples.fromstring Samples.feed_text = Return recs
      ∧ sr.id <$> recs = ["1234.5678v2"; "oai:arXiv.org:0704.0001"]
      ∧ Forall2 (λ entry rec,
            ∃ raw, child_text entry "id" = Some raw
              ∧ (∀ rest, raw = BASE_ARXIV_URL +:+ rest → sr.id rec = rest)
              ∧ ((∀ rest, raw ≠ BASE_ARXIV_URL +:+ rest) → sr.id rec = raw))
          (get_atom_children Samples.feed_tree "entry") recs.
Proof.
  split; [done|]. eexists. split; [by vm_compute|]. split; [done|].
  by apply (id_is_stripped_of_base_url Samples.fromstring Samples.feed_text).
Defined.

(** ** The retrieval *)

Section Running.

Variable fromstring : string → option xee.Element.
Variable service : list string → string → result r.Response.

Lemma get_response_with_limited_query_run start space w :
  get_response_with_limited_query service start space w
  = (service (sent w) (limited_url (query (self w)) start space),
     after_request w (limited_url (query (self w)) start space)).
Proof. reflexivity. Qed.

Lemma fetch_page_run start space end_ count w :
  fetch_page fromstring service start space end_ count w
  = let url := limited_url (query (self w)) start space in
    (page ← service (sent w) url;
     search_results ← parse_valid_response fromstring (r.text page);
     mret (Some (enumerate search_results),
           GenSuspended start space end_
             (count + Z.of_nat (length search_results))%Z),
     after_request w url).
Proof.
  unfold fetch_page. cbv zeta. unfold mbind at 1, M_bind.
  rewrite get_response_with_limited_query_run.
  destruct (service _ _) as [ex|page]; [done|].
  rewrite bind_Return. unfold mbind at 1, M_bind, lift.
  by destruct (parse_valid_response _ _).
Qed.

Lemma retrieve_search_results_run w :
  retrieve_search_results fromstring service w
  = let url := limited_url (query (self w)) (start (self w)) (max_result (self w)) in
    (response ← service (sent w) url;
     if r.ok response then
       root ← get_xml_tree fromstring (r.text response);
       total ← deref (get_open_search_child root "totalResults");
       total_results ← PyInt.int (xee.text total);
       mret (Pages (retrieve_valid_search_results
                      (start (self w)) (max_result (self w)) total_results))
     else
       msg ← parse_error fromstring (r.text response);
       mret (Message msg),
     after_request w url).
Proof.
  unfold retrieve_search_results, get_response_with_starting_query. cbv zeta.
  unfold mbind at 1, M_bind. unfold mbind at 1, M_bind.
  unfold self_attr at 1. unfold mbind at 1, M_bind. unfold self_attr at 1.
  rewrite get_response_with_limited_query_run.
  destruct (service _ _) as [ex|response]; [done|].
  rewrite bind_Return. destruct (r.ok response).
  - unfold mbind at 1, M_bind, lift.
    destruct (get_xml_tree _ _) as [ex|root]; [done|]. rewrite bind_Return.
    unfold mbind at 1, M_bind.
    destruct (deref _) as [ex|total]; [done|]. rewrite bind_Return.
    unfold mbind at 1, M_bind.
    by destruct (PyInt.int _) as [ex|total_results].
  - unfold mbind at 1, M_bind, lift.
    by destruct (parse_error _ _) as [ex|msg].
Qed.

Lemma drain_succ fuel g w :
  drain fromstring service (S fuel) g w
  = match next fromstring service g w with
    | (Raise ex, w') => (Raise ex, w')
    | (Return (None, _), w') => (Return (Some []), w')
    | (Return (Some b, g'), w') =>
        match drain fromstring service fuel g' w' with
        | (Raise ex, w'') => (Raise ex, w'')
        | (Return more, w'') => (Return (cons b <$> more), w'')
        end
    end.
Proof.
  cbn [drain]. unfold mbind at 1, M_bind.
  destruct (next _ _ _ _) as [[ex|[[b|] g']] w']; done.
Qed.

(** A step of the generator leaves [self] alone and adds at most one URL,
    built from [self.query] and a cursor, to the log. *)
Lemma next_frame g w :
  self (next fromstring service g w).2 = self w
  ∧ (sent (next fromstring service g w).2 = sent w
     ∨ ∃ cursor space,
         sent (next fromstring service g w).2
         = sent w ++ [limited_url (query (self w)) cursor space]).
Proof.
  destruct g as [st sp e|st sp e c|]; simpl next.
  - rewrite fetch_page_run. split; [done|]. right. by exists st, sp.
  - destruct (st + sp >? e)%Z; [by split; [|left]|].
    rewrite fetch_page_run. split; [done|]. right. by exists (st + sp)%Z, sp.
  - by split; [|left].
Qed.

Lemma drain_frame fuel g w :
  self (drain fromstring service fuel g w).2 = self w.
Proof.
  revert g w. induction fuel as [|fuel IH]; intros g w; [done|].
  rewrite drain_succ. pose proof (next_frame g w) as [Hself _].
  destruct (next _ _ _ _) as [[ex|[[b|] g']] w']; simpl in *; try done.
  specialize (IH g' w').
  destruct (drain _ _ _ _ _) as [[ex|more] w'']; simpl in *; congruence.
Qed.

End Running.

(** C10. A retrieval leaves the query object as it was: neither
    [retrieve_search_results], nor a step of the page generator, nor pulling
    all its pages changes [self]; what a step adds to the world is one
    request, whose URL is [self.query] with a cursor of the generator. *)
Theorem retrieval_leaves_query_unchanged
    (fromstring : string → option xee.Element)
    (service : list string → string → result r.Response) (w : World) :
  self (retrieve_search_results fromstring service w).2 = self w
  ∧ (∀ g, self (next fromstring service g w).2 = self w
          ∧ (sent (next fromstring service g w).2 = sent w
             ∨ ∃ cursor space,
                 sent (next fromstring service g w).2
                 = sent w ++ [limited_url (query (self w)) cursor space]))
  ∧ (∀ fuel g, self (drain fromstring service fuel g w).2 = self w).
Proof.
  split; [|split].
  - by rewrite retrieve_search_results_run.
  - intros g. apply next_frame.
  - intros fuel g. apply drain_frame.
Qed.

(** C3, as the code has it. When the response to the first request is not
    [ok] (a 4xx or 5xx status) and its body is a well-formed error envelope,
    an entry whose summary holds the error text, the retrieval returns
    exactly that text and no page generator; one request has been sent and
    nothing is left that could send another. *)
Theorem error_envelope_ends_retrieval
    (fromstring : string → option xee.Element)
    (service : list string → string → result r.Response) (w : World)
    (response : r.Response) (root entry summary : xee.Element) (msg : string) :
  let url := limited_url (query (self w)) (start (self w)) (max_result (self w)) in
  service (sent w) url = Return response →
  r.ok response = false →
  fromstring (r.text response) = Some root →
  get_atom_child root "entry" = Some entry →
  get_atom_child entry "summary" = Some summary →
  xee.text summary = Some msg →
  retrieve_search_results fromstring service w
  = (Return (Message (Some msg)), after_request w url).
Proof.
  intros url Hresponse Hok Hroot Hentry Hsummary Hmsg.
  rewrite retrieve_search_results_run. cbv zeta. fold url.
  rewrite Hresponse, bind_Return, Hok.
  unfold parse_error, get_xml_tree. rewrite Hroot, bind_Return.
  rewrite Hentry, deref_Some, bind_Return.
  by rewrite Hsummary, deref_Some, !bind_Return, Hmsg.
Qed.

Lemma error_envelope_ends_retrieval_witness :
  let w := {| self := Samples.deep_query; sent := [] |} in
  let response := {| r.status_code := 400; r.text := Samples.error_text |} in
  r.ok response = false
  ∧ Samples.fromstring (r.text response) = Some Samples.error_tree
  ∧ retrieve_search_results Samples.fromstring Samples.rejecting_service w
    = (Return (Message (Some "Invalid id list")),
       {| self := Samples.deep_query;
          sent := ["http://export.arxiv.org/api/query/?search_query=ti:deep&start=0&max_result=10"] |}).
Proof.
  intros w response. split; [done|]. split; [done|].
  by apply (error_envelope_ends_retrieval
              Samples.fromstring Samples.rejecting_service w response
              Samples.error_tree
              (Samples.atom "entry" ∅ None
                 [ Samples.leaf "id" "http://arxiv.org/api/errors#incorrect_id_format_for_x";
                   Samples.leaf "title" "Error";
                   Samples.leaf "summary" "Invalid id list" ])
              (Samples.leaf "summary" "Invalid id list") "Invalid id list").
Defined.

(** The same envelope under a success status: [parse_error] would extract
    its text, but the retrieval takes the [ok] branch, finds no
    [totalResults] element and fails with [AttributeError]. *)
Lemma error_envelope_under_success_status_is_not_surfaced :
  let w := {| self := Samples.deep_query; sent := [] |} in
  let response := {| r.status_code := 200; r.text := Samples.error_text |} in
  Samples.misflagging_service (sent w)
    (limited_url (query (self w)) (start (self w)) (max_result (self w)))
  = Return response
  ∧ r.ok response = true
  ∧ parse_error Samples.fromstring (r.text response) = Return (Some "Invalid id list")
  ∧ (retrieve_search_results Samples.fromstring Samples.misflagging_service w).1
    = Raise AttributeError.
Proof. by vm_compute. Qed.

Section Pagination.

Variable fromstring : string → option xee.Element.
Variable service : list string → string → result r.Response.

(** Past the bound, the suspended generator returns without a request. *)
Lemma next_stops start space end_ count w :
  (start + space > end_)%Z →
  next fromstring service (GenSuspended start space end_ count) w
  = (Return (None, GenClosed), w).
Proof.
  intros Hgt. simpl next.
  by rewrite (proj2 (Z.gtb_gt (start + space) end_)) by lia.
Qed.

(** Up to the bound, and on the bound, it fetches the next page. *)
Lemma next_fetches start space end_ count w :
  (start + space ≤ end_)%Z →
  next fromstring service (GenSuspended start space end_ count) w
  = fetch_page fromstring service (start + space) space end_ count w.
Proof.
  intros Hle. simpl next.
  destruct (start + space >? end_)%Z eqn:Hgt; [|done].
  apply Z.gtb_gt in Hgt. lia.
Qed.

Lemma fetch_page_yields start space end_ count w page recs :
  service (sent w) (limited_url (query (self w)) start space) = Return page →
  parse_valid_response fromstring (r.text page) = Return recs →
  fetch_page fromstring service start space end_ count w
  = (Return (Some (enumerate recs),
             GenSuspended start space end_ (count + Z.of_nat (length recs))%Z),
     after_request w (limited_url (query (self w)) start space)).
Proof.
  intros Hpage Hrecs. rewrite fetch_page_run. cbv zeta.
  by rewrite Hpage, bind_Return, Hrecs, bind_Return.
Qed.

(** Closes a goal [sent w ++ l1 `prefix_of` sent w ++ l2] by naming what
is left of [l2]. *)
Ltac left_unsent rest := exists rest; cbn; by rewrite <-?app_assoc.

(** Whatever the service answers, draining the generator for 25 results in
pages of 10 sends page requests at the cursors 0, 10 and 20, in this order,
and never a fourth. *)
Lemma drain_25_by_10_requests fuel w :
  let url cursor := limited_url (query (self w)) cursor 10 in
  sent (drain fromstring service fuel (GenCreated 0 10 25) w).2
    `prefix_of` sent w ++ [url 0; url 10; url 20]%Z.
Proof.
  intros url.
  destruct fuel as [|fuel]; [by eexists|].
  rewrite drain_succ. cbn [next]. rewrite fetch_page_run. cbv zeta.
  destruct (service _ _) as [ex|p0]; [left_unsent [url 10; url 20]%Z|].
  rewrite bind_Return.
  destruct (parse_valid_response _ _) as [ex|r0]; [left_unsent [url 10; url 20]%Z|].
  rewrite bind_Return. unfold mret, result_ret.
  destruct fuel as [|fuel]; [left_unsent [url 10; url 20]%Z|].
  rewrite drain_succ, next_fetches, fetch_page_run by done. cbv zeta.
  destruct (service _ _) as [ex|p1]; [left_unsent [url 20%Z]|].
  rewrite bind_Return.
  destruct (parse_valid_response _ _) as [ex|r1]; [left_unsent [url 20%Z]|].
  rewrite bind_Return. unfold mret, result_ret.
  destruct fuel as [|fuel]; [left_unsent [url 20%Z]|].
  rewrite drain_succ, next_fetches, fetch_page_run by done. cbv zeta.
  destruct (service _ _) as [ex|p2]; [left_unsent (@nil string)|].
  rewrite bind_Return.
  destruct (parse_valid_response _ _) as [ex|r2]; [left_unsent (@nil string)|].
  rewrite bind_Return. unfold mret, result_ret.
  destruct fuel as [|fuel]; [left_unsent (@nil string)|].
  rewrite drain_succ, next_stops by done.
  left_unsent (@nil string).
Qed.

Lemma shifted_cursors (f : Z → string) (start space : Z) n :
  map (λ k, f (start + Z.of_nat k * space)%Z) (seq 2 n)
  = map (λ k, f (start + space + Z.of_nat k * space)%Z) (seq 1 n).
Proof.
  rewrite <-(seq_shift n 1), map_map. apply map_ext. intros k. f_equal. lia.
Qed.

Section AnsweredPages.

Variables (space end_ : Z).
Hypothesis space_pos : (0 < space)%Z.

(** Every page request is answered with text that parses. *)
Hypothesis pages_parse :
  ∀ history url, ∃ page recs,
    service history url = Return page
    ∧ parse_valid_response fromstring (r.text page) = Return recs.

(** A suspended generator with exactly [n] cursors left up to the total
yields [n] more batches, requested at those cursors, and returns. *)
Lemma drain_suspended n :
  ∀ start count w fuel,
    (end_ < start + (Z.of_nat n + 1) * space)%Z →
    (n = 0%nat ∨ start + Z.of_nat n * space ≤ end_)%Z →
    (n < fuel)%nat →
    ∃ batches w',
      drain fromstring service fuel (GenSuspended start space end_ count) w
      = (Return (Some batches), w')
      ∧ length batches = n
      ∧ self w' = self w
      ∧ sent w' = sent w ++ map (λ k, limited_url (query (self w))
                                         (start + Z.of_nat k * space) space)
                                (seq 1 n).
Proof.
  induction n as [|n IH]; intros start count w [|fuel] Hlt Hle Hfuel; try lia.
  - rewrite drain_succ, next_stops by lia.
    exists [], w. by rewrite app_nil_r.
  - assert (start + space ≤ end_)%Z as Hnext by (destruct Hle; [done|nia]).
    rewrite drain_succ, next_fetches by done.
    destruct (pages_parse (sent w)
                (limited_url (query (self w)) (start + space) space))
      as (page & recs & Hpage & Hrecs).
    rewrite (fetch_page_yields _ _ _ _ _ page recs) by done.
    destruct (IH (start + space)%Z (count + Z.of_nat (length recs))%Z
                 (after_request w (limited_url (query (self w)) (start + space) space))
                 fuel)
      as (batches & w' & -> & Hlen & Hself & Hsent); [lia|lia|lia|].
    exists (enumerate recs :: batches), w'. split; [done|].
    split; [by rewrite length_cons, Hlen|]. split; [done|].
    rewrite Hsent. cbn [after_request self sent].
    change (seq 1 (S n)) with (1%nat :: seq 2 n). cbn [map].
    rewrite (shifted_cursors (λ cursor, limited_url (query (self w)) cursor space)).
    rewrite <-app_assoc. cbn [app]. do 3 f_equal. lia.
Qed.

(** The whole generator: the first page is requested in any case, then the
pages at the cursors that are not greater than the total. *)
Lemma drain_created start w fuel :
  let n := if (start + space <=? end_)%Z
           then Z.to_nat ((end_ - start) / space) else 0%nat in
  (S n < fuel)%nat →
  ∃ batches w',
    drain fromstring service fuel (GenCreated start space end_) w
    = (Return (Some batches), w')
    ∧ length batches = S n
    ∧ self w' = self w
    ∧ sent w' = sent w ++ map (λ k, limited_url (query (self w))
                                       (start + Z.of_nat k * space) space)
                              (seq 0 (S n)).
Proof.
  intros n Hfuel. destruct fuel as [|fuel]; [lia|].
  rewrite drain_succ. cbn [next].
  destruct (pages_parse (sent w) (limited_url (query (self w)) start space))
    as (page & recs & Hpage & Hrecs).
  rewrite (fetch_page_yields _ _ _ _ _ page recs) by done.
  destruct (drain_suspended n start (0 + Z.of_nat (length recs))%Z
              (after_request w (limited_url (query (self w)) start space)) fuel)
    as (batches & w' & -> & Hlen & Hself & Hsent); [| |lia|].
  - subst n. destruct (start + space <=? end_)%Z eqn:Hle.
    + apply Z.leb_le in Hle.
      rewrite Z2Nat.id by (apply Z.div_pos; lia).
      pose proof (Z.mul_succ_div_gt (end_ - start) space space_pos). lia.
    + apply Z.leb_gt in Hle. lia.
  - subst n. destruct (start + space <=? end_)%Z eqn:Hle; [right|by left].
    apply Z.leb_le in Hle.
    rewrite Z2Nat.id by (apply Z.div_pos; lia).
    pose proof (Z.mul_div_le (end_ - start) space space_pos). lia.
  - exists (enumerate recs :: batches), w'. split; [done|].
    split; [by rewrite length_cons, Hlen|]. split; [done|].
    rewrite Hsent. cbn [after_request self sent].
    change (seq 0 (S n)) with (0%nat :: seq 1 n). cbn [map].
    rewrite <-app_assoc. cbn [app]. do 3 f_equal. lia.
Qed.

End AnsweredPages.

End Pagination.

(** C1. With [start = 0], [max_result = 10] and a first response that
    reports [totalResults = 25], the page requests of the retrieval are at
    the cursors 0, 10 and 20, in this order and whatever is answered, and
    when they are answered with text that parses the retrieval yields
    exactly three page batches and returns, the cursor having become 30.
    In general the suspended generator returns, without a request, only
    when the advanced cursor is strictly greater than the total; while it is
    not greater, so also when it is equal, the page at that cursor is
    requested and yielded. *)
Theorem pagination_stops_past_total
    (fromstring : string → option xee.Element)
    (service : list string → string → result r.Response) :
  (∀ w : World,
     let url cursor := limited_url (query (self w)) cursor 10 in
     start (self w) = 0%Z → max_result (self w) = 10%Z →
     (∃ response root total,
        service (sent w) (url 0%Z) = Return response ∧ r.ok response = true
        ∧ fromstring (r.text response) = Some root
        ∧ get_open_search_child root "totalResults" = Some total
        ∧ PyInt.int (xee.text total) = Return 25%Z) →
     ∃ g,
       retrieve_search_results fromstring service w
       = (Return (Pages g), after_request w (url 0%Z))
       ∧ (∀ fuel,
            sent (drain fromstring service fuel g (after_request w (url 0%Z))).2
              `prefix_of` sent w ++ [url 0; url 0; url 10; url 20]%Z)
       ∧ ((∀ history cursor, cursor ∈ [0; 10; 20]%Z →
             ∃ page recs, service history (url cursor) = Return page
               ∧ parse_valid_response fromstring (r.text page) = Return recs) →
          ∃ b0 b1 b2, ∀ fuel : nat, (4 ≤ fuel)%nat →
            drain fromstring service fuel g (after_request w (url 0%Z))
            = (Return (Some [b0; b1; b2]),
               {| self := self w;
                  sent := sent w ++ [url 0; url 0; url 10; url 20]%Z |})))
  ∧ (∀ start space end_ count w,
       (start + space > end_)%Z →
       next fromstring service (GenSuspended start space end_ count) w
       = (Return (None, GenClosed), w))
  ∧ (∀ start space end_ count w page recs,
       (start + space ≤ end_)%Z →
       service (sent w) (limited_url (query (self w)) (start + space) space)
       = Return page →
       parse_valid_response fromstring (r.text page) = Return recs →
       next fromstring service (GenSuspended start space end_ count) w
       = (Return (Some (enumerate recs),
                  GenSuspended (start + space) space end_
                    (count + Z.of_nat (length recs))%Z),
          after_request w (limited_url (query (self w)) (start + space) space))).
Proof.
  split; [|split].
  - intros w url Hstart Hmax
      (response & root & total & Hresponse & Hok & Hroot & Htotal & Hint).
    exists (GenCreated 0 10 25). split; [|split].
    + rewrite retrieve_search_results_run. cbv zeta.
      rewrite Hstart, Hmax. fold (url 0%Z).
      rewrite Hresponse, bind_Return, Hok. unfold get_xml_tree.
      by rewrite Hroot, bind_Return, Htotal, deref_Some, bind_Return, Hint, bind_Return.
    + intros fuel.
      pose proof (drain_25_by_10_requests fromstring service fuel
                    (after_request w (url 0%Z))) as Hsent.
      cbn [after_request self sent] in Hsent. by rewrite <-app_assoc in Hsent.
    + intros Hpages.
      destruct (Hpages (sent w ++ [url 0%Z]) 0%Z) as (p0 & r0 & Hp0 & Hr0);
        [set_solver|].
      destruct (Hpages ((sent w ++ [url 0%Z]) ++ [url 0%Z]) 10%Z)
        as (p1 & r1 & Hp1 & Hr1); [set_solver|].
      destruct (Hpages (((sent w ++ [url 0%Z]) ++ [url 0%Z]) ++ [url 10%Z]) 20%Z)
        as (p2 & r2 & Hp2 & Hr2); [set_solver|].
      exists (enumerate r0), (enumerate r1), (enumerate r2).
      intros [|[|[|[|fuel]]]] Hfuel; [lia..|].
      rewrite drain_succ. cbn [next].
      rewrite (fetch_page_yields _ _ _ _ _ _ _ p0 r0) by done.
      rewrite drain_succ, next_fetches by done.
      rewrite (fetch_page_yields _ _ _ _ _ _ _ p1 r1) by done.
      rewrite drain_succ, next_fetches by done.
      rewrite (fetch_page_yields _ _ _ _ _ _ _ p2 r2) by done.
      rewrite drain_succ, next_stops by done.
      unfold after_request. cbn [self sent]. by rewrite <-!app_assoc.
  - intros. by apply next_stops.
  - intros start space end_ count w page recs Hle Hpage Hrecs.
    rewrite next_fetches by done. by eapply fetch_page_yields.
Qed.

Lemma pagination_stops_past_total_witness :
  start Samples.deep_query = 0%Z ∧ max_result Samples.deep_query = 10%Z
  ∧ ∃ g b0 b1 b2,
      retrieve_search_results Samples.fromstring Samples.feed_service
        {| self := Samples.deep_query; sent := [] |}
      = (Return (Pages g),
         {| self := Samples.deep_query;
            sent := ["http://export.arxiv.org/api/query/?search_query=ti:deep&start=0&max_result=10"] |})
      ∧ drain Samples.fromstring Samples.feed_service 4 g
          {| self := Samples.deep_query;
             sent := ["http://export.arxiv.org/api/query/?search_query=ti:deep&start=0&max_result=10"] |}
        = (Return (Some [b0; b1; b2]),
           {| self := Samples.deep_query;
              sent := ["http://export.arxiv.org/api/query/?search_query=ti:deep&start=0&max_result=10";
                       "http://export.arxiv.org/api/query/?search_query=ti:deep&start=0&max_result=10";
                       "http://export.arxiv.org/api/query/?search_query=ti:deep&start=10&max_result=10";
                       "http://export.arxiv.org/api/query/?search_query=ti:deep&start=20&max_result=10"] |}).
Proof.
  split; [done|]. split; [done|].
  destruct (pagination_stops_past_total Samples.fromstring Samples.feed_service)
    as [Hinstance _].
  destruct (Hinstance {| self := Samples.deep_query; sent := [] |} eq_refl eq_refl)
    as (g & Hfirst & _ & Hdrain).
  - exists {| r.status_code := 200; r.text := Samples.feed_text |},
      Samples.feed_tree,
      (xee.mkElement (XML_OPEN_SEARCH_ROOT +:+ "totalResults") ∅ (Some "25") []).
    by repeat split.
  - destruct Hdrain as (b0 & b1 & b2 & Hdrain).
    + intros history cursor _.
      exists {| r.status_code := 200; r.text := Samples.feed_text |}.
      eexists. split; [done|]. by vm_compute.
    + exists g, b0, b1, b2. split; [exact Hfirst|]. apply (Hdrain 4%nat). lia.
Defined.

(** * Further properties of the code *)

(** ** Rendering, all cases *)

Section Concatenation.

Lemma append_empty_r s : s +:+ "" = s.
Proof. induction s as [|a s IH]; [done|]. by rewrite append_cons, IH. Qed.

(** The chain of lines 42-48 is a concatenation: a fragment that is empty
adds nothing. *)
Lemma combine_params_append formatted ids_s :
  combine_params formatted ids_s = formatted +:+ ids_s.
Proof.
  unfold combine_params. destruct formatted, ids_s; simpl; try done.
  by rewrite append_empty_r.
Qed.

End Concatenation.

(** X1. In every case of lines 42-48 the rendered query is the endpoint
    followed by the [search_query=] fragment and then by the [id_list=]
    fragment, each of them empty when it has no terms; a query without any
    term is the bare endpoint. *)
Theorem query_concatenates_fragments (title author abstract ids : list string)
    (mr st : Z) :
  let tokens := map (String.append "ti:") title ++ map (String.append "au:") author
                ++ map (String.append "abs:") abstract in
  __str__ (__init__ title author abstract ids mr st)
  = BASE_QUERY_URL
    +:+ match tokens with
        | [] => ""
        | _ :: _ => "search_query=" +:+ PyStr.join "+AND+" tokens
        end
    +:+ match ids with
        | [] => ""
        | _ :: _ => "id_list=" +:+ PyStr.join "," ids
        end.
Proof.
  intros tokens. unfold __str__, __init__, query.
  rewrite combine_params_append, formatted_params_list_eq. fold tokens.
  unfold search_fragment, id_fragment. by destruct tokens, ids.
Qed.

(** ** The first request *)

Section FirstRequest.

Variable fromstring : string → option xee.Element.
Variable service : list string → string → result r.Response.

(** Whatever comes of it, [retrieve_search_results] sends one request, for
the window of the query, and changes nothing else. *)
Lemma retrieve_search_results_world w :
  (retrieve_search_results fromstring service w).2
  = after_request w (limited_url (query (self w)) (start (self w)) (max_result (self w))).
Proof. by rewrite retrieve_search_results_run. Qed.

Lemma retrieve_search_results_outcome w :
  (retrieve_search_results fromstring service w).1
  = (response ← service (sent w)
       (limited_url (query (self w)) (start (self w)) (max_result (self w)));
     if r.ok response then
       root ← get_xml_tree fromstring (r.text response);
       total ← deref (get_open_search_child root "totalResults");
       total_results ← PyInt.int (xee.text total);
       mret (Pages (GenCreated (start (self w)) (max_result (self w)) total_results))
     else
       msg ← parse_error fromstring (r.text response);
       mret (Message msg)).
Proof. by rewrite retrieve_search_results_run. Qed.

(** [find] is the head of [findall]. *)
Lemma find_head_findall parent path :
  xee.find parent path = head (xee.findall parent path).
Proof.
  unfold xee.find, xee.findall.
  induction (xee.children parent) as [|child children IH]; [done|].
  simpl. by destruct (String.eqb (xee.tag child) path).
Qed.

Lemma get_atom_child_head parent tag :
  get_atom_child parent tag = head (get_atom_children parent tag).
Proof. apply find_head_findall. Qed.

End FirstRequest.

(** X2. [retrieve_search_results] sends exactly one request whatever comes
    of it, for the window ([start], [max_result]) of the query; when it
    returns the page generator, the generator starts at that same window, so
    that its first step sends the same URL a second time. *)
Theorem first_window_is_requested_twice
    (fromstring : string → option xee.Element)
    (service : list string → string → result r.Response) (w : World) :
  let url := limited_url (query (self w)) (start (self w)) (max_result (self w)) in
  (retrieve_search_results fromstring service w).2 = after_request w url
  ∧ ∀ g, (retrieve_search_results fromstring service w).1 = Return (Pages g) →
      (∃ total, g = GenCreated (start (self w)) (max_result (self w)) total)
      ∧ (next fromstring service g (after_request w url)).2
        = after_request (after_request w url) url.
Proof.
  intros url. split; [apply retrieve_search_results_world|].
  intros g. rewrite retrieve_search_results_outcome.
  destruct (service _ _) as [ex|response]; [done|]. rewrite bind_Return.
  destruct (r.ok response).
  - destruct (get_xml_tree _ _) as [ex|root]; [done|]. rewrite bind_Return.
    destruct (deref _) as [ex|total]; [done|]. rewrite bind_Return.
    destruct (PyInt.int _) as [ex|n]; [done|]. rewrite bind_Return.
    intros [= <-]. split; [by exists n|].
    cbn [next]. by rewrite fetch_page_run.
  - by destruct (parse_error _ _).
Qed.

Lemma first_window_is_requested_twice_witness :
  ∃ g,
    (retrieve_search_results Samples.fromstring Samples.feed_service
       {| self := Samples.deep_query; sent := [] |}).1 = Return (Pages g)
    ∧ sent (next Samples.fromstring Samples.feed_service g
              (after_request {| self := Samples.deep_query; sent := [] |}
                 "http://export.arxiv.org/api/query/?search_query=ti:deep&start=0&max_result=10")).2
      = ["http://export.arxiv.org/api/query/?search_query=ti:deep&start=0&max_result=10";
         "http://export.arxiv.org/api/query/?search_query=ti:deep&start=0&max_result=10"].
Proof.
  exists (GenCreated 0 10 25). split; [done|].
  destruct (first_window_is_requested_twice Samples.fromstring Samples.feed_service
              {| self := Samples.deep_query; sent := [] |}) as [_ Htwice].
  destruct (Htwice (GenCreated 0 10 25) eq_refl) as [_ Hnext].
  exact (f_equal sent Hnext).
Defined.

(** X3. How [retrieve_search_results] fails. A failure of [requests.get] is
    passed on as it is. A body that is not well-formed XML gives
    [ParseError], under a success status and under an error status alike.
    Under a success status, a document without a [totalResults] element
    gives [AttributeError], a [totalResults] element without text gives
    [TypeError], and a text that [int] rejects gives the exception of [int];
    only an integer text gives the generator, whose bound is that integer. *)
Theorem retrieval_failures
    (fromstring : string → option xee.Element)
    (service : list string → string → result r.Response) (w : World) :
  let url := limited_url (query (self w)) (start (self w)) (max_result (self w)) in
  let outcome := (retrieve_search_results fromstring service w).1 in
  (∀ e, service (sent w) url = Raise e → outcome = Raise e)
  ∧ (∀ response, service (sent w) url = Return response →
       (fromstring (r.text response) = None → outcome = Raise ParseError)
       ∧ (∀ root, r.ok response = true → fromstring (r.text response) = Some root →
            (get_open_search_child root "totalResults" = None →
             outcome = Raise AttributeError)
            ∧ (∀ total, get_open_search_child root "totalResults" = Some total →
                 (xee.text total = None → outcome = Raise TypeError)
                 ∧ (∀ e, PyInt.int (xee.text total) = Raise e → outcome = Raise e)
                 ∧ (∀ n, PyInt.int (xee.text total) = Return n →
                      outcome = Return (Pages (GenCreated (start (self w))
                                                 (max_result (self w)) n)))))).
Proof.
  intros url outcome. subst outcome. rewrite retrieve_search_results_outcome.
  fold url. split.
  { by intros e ->. }
  intros response ->. rewrite bind_Return. split.
  { intros Hnone. unfold parse_error, get_xml_tree. rewrite Hnone.
    by destruct (r.ok response). }
  intros root -> Hroot. unfold get_xml_tree. rewrite Hroot, bind_Return. split.
  { by intros ->. }
  intros total ->. rewrite deref_Some, bind_Return. split; [|split].
  - by intros ->.
  - by intros e ->.
  - by intros n ->.
Qed.

Lemma retrieval_failures_witness :
  (retrieve_search_results Samples.fromstring
     (λ _ _, Return {| r.status_code := 200; r.text := Samples.truncated_text |})
     {| self := Samples.deep_query; sent := [] |}).1 = Raise ParseError
  ∧ (retrieve_search_results Samples.fromstring
       (λ _ _, Return {| r.status_code := 503; r.text := Samples.truncated_text |})
       {| self := Samples.deep_query; sent := [] |}).1 = Raise ParseError
  ∧ (retrieve_search_results Samples.fromstring Samples.misflagging_service
       {| self := Samples.deep_query; sent := [] |}).1 = Raise AttributeError
  ∧ (retrieve_search_results Samples.fromstring (λ _ _, Raise RequestException)
       {| self := Samples.deep_query; sent := [] |}).1 = Raise RequestException.
Proof.
  split; [|split; [|split]].
  - destruct (retrieval_failures Samples.fromstring
      (λ _ _, Return {| r.status_code := 200; r.text := Samples.truncated_text |})
      {| self := Samples.deep_query; sent := [] |}) as [_ H].
    by apply (H {| r.status_code := 200; r.text := Samples.truncated_text |} eq_refl).
  - destruct (retrieval_failures Samples.fromstring
      (λ _ _, Return {| r.status_code := 503; r.text := Samples.truncated_text |})
      {| self := Samples.deep_query; sent := [] |}) as [_ H].
    by apply (H {| r.status_code := 503; r.text := Samples.truncated_text |} eq_refl).
  - destruct (retrieval_failures Samples.fromstring Samples.misflagging_service
      {| self := Samples.deep_query; sent := [] |}) as [_ H].
    destruct (H {| r.status_code := 200; r.text := Samples.error_text |} eq_refl)
      as [_ Hok].
    by apply (Hok Samples.error_tree eq_refl eq_refl).
  - destruct (retrieval_failures Samples.fromstring (λ _ _, Raise RequestException)
      {| self := Samples.deep_query; sent := [] |}) as [H _].
    by apply H.
Defined.

(** X4. [parse_error] reads the first entry only: with no entry element it
    fails with [AttributeError]; otherwise it returns the text of the first
    summary of the first entry ([None] for a summary without text), and
    fails with [AttributeError] when that entry has no summary, whatever
    the entries after it hold. *)
Theorem parse_error_reads_first_entry
    (fromstring : string → option xee.Element) (error_msg : string)
    (root : xee.Element) :
  fromstring error_msg = Some root →
  (get_atom_children root "entry" = [] →
   parse_error fromstring error_msg = Raise AttributeError)
  ∧ (∀ first others, get_atom_children root "entry" = first :: others →
       (get_atom_children first "summary" = [] →
        parse_error fromstring error_msg = Raise AttributeError)
       ∧ (∀ summary more, get_atom_children first "summary" = summary :: more →
            parse_error fromstring error_msg = Return (xee.text summary))).
Proof.
  intros Hroot. unfold parse_error, get_xml_tree. rewrite Hroot, bind_Return.
  rewrite get_atom_child_head. split.
  { by intros ->. }
  intros first others ->. cbn [head]. rewrite deref_Some, bind_Return.
  rewrite get_atom_child_head. split.
  - by intros ->.
  - by intros summary more ->.
Qed.

Lemma parse_error_reads_first_entry_witness :
  Samples.fromstring Samples.error_text = Some Samples.error_tree
  ∧ parse_error Samples.fromstring Samples.error_text = Return (Some "Invalid id list")
  ∧ parse_error Samples.fromstring Samples.feed_text = Return (Some "We study nets.").
Proof.
  split; [done|]. split.
  - destruct (parse_error_reads_first_entry Samples.fromstring Samples.error_text
                Samples.error_tree eq_refl) as [_ Hfirst].
    edestruct Hfirst as [_ Hsummary]; [by vm_compute|].
    rewrite (Hsummary (Samples.leaf "summary" "Invalid id list") []); by vm_compute.
  - destruct (parse_error_reads_first_entry Samples.fromstring Samples.feed_text
                Samples.feed_tree eq_refl) as [_ Hfirst].
    edestruct Hfirst as [_ Hsummary]; [by vm_compute|].
    rewrite (Hsummary (Samples.leaf "summary" "We study nets.") []); by vm_compute.
Defined.

(** ** The page generator, in general *)

Section Generator.

Variable fromstring : string → option xee.Element.
Variable service : list string → string → result r.Response.

(** A step that yields has sent one request and parsed its answer. *)
Lemma fetch_page_inv start space end_ count w b g' w' :
  fetch_page fromstring service start space end_ count w = (Return (Some b, g'), w') →
  ∃ page recs,
    service (sent w) (limited_url (query (self w)) start space) = Return page
    ∧ parse_valid_response fromstring (r.text page) = Return recs
    ∧ b = enumerate recs
    ∧ g' = GenSuspended start space end_ (count + Z.of_nat (length recs))%Z
    ∧ w' = after_request w (limited_url (query (self w)) start space).
Proof.
  rewrite fetch_page_run. cbv zeta.
  destruct (service _ _) as [ex|page] eqn:Hpage; [done|]. rewrite bind_Return.
  destruct (parse_valid_response _ _) as [ex|recs] eqn:Hrecs; [done|].
  rewrite bind_Return. intros [= <- <- <-]. by exists page, recs.
Qed.

Lemma enumerate_fst {A} (l : list A) : (enumerate l).*1 = seq 0 (length l).
Proof. unfold enumerate. apply fst_zip. by rewrite length_seq. Qed.

Lemma enumerate_snd {A} (l : list A) : (enumerate l).*2 = l.
Proof. unfold enumerate. apply snd_zip. by rewrite length_seq. Qed.

Lemma Forall_shifted_cursors (start space end_ : Z) m :
  Forall (λ k, start + space + Z.of_nat k * space ≤ end_)%Z (seq 1 m) →
  Forall (λ k, start + Z.of_nat k * space ≤ end_)%Z (seq 2 m).
Proof.
  rewrite <-(seq_shift m 1), Forall_map. intros Hall.
  eapply Forall_impl; [exact Hall|]. intros k Hk. simpl in *. lia.
Qed.

(** Whatever is answered, a suspended generator requests the cursors that
follow its own, one space apart, and none that is greater than the bound. *)
Lemma drain_suspended_requests space end_ fuel :
  ∀ start count w,
    ∃ m, (m ≤ fuel)%nat
      ∧ self (drain fromstring service fuel (GenSuspended start space end_ count) w).2
        = self w
      ∧ sent (drain fromstring service fuel (GenSuspended start space end_ count) w).2
        = sent w ++ map (λ k, limited_url (query (self w))
                                (start + Z.of_nat k * space) space) (seq 1 m)
      ∧ Forall (λ k, start + Z.of_nat k * space ≤ end_)%Z (seq 1 m).
Proof.
  induction fuel as [|fuel IH]; intros start count w.
  { exists 0%nat. split; [done|]. split; [done|]. split; [|constructor].
    cbn. by rewrite app_nil_r. }
  rewrite drain_succ.
  destruct (Z.le_gt_cases (start + space) end_) as [Hle|Hgt].
  - rewrite next_fetches, fetch_page_run by done. cbv zeta.
    assert (Forall (λ k, start + Z.of_nat k * space ≤ end_)%Z (seq 1 1)) as Hone.
    { repeat constructor. simpl. lia. }
    assert (sent (after_request w (limited_url (query (self w)) (start + space) space))
            = sent w ++ map (λ k, limited_url (query (self w))
                                    (start + Z.of_nat k * space) space) (seq 1 1))
      as Hsent1.
    { cbn. do 3 f_equal. lia. }
    destruct (service _ _) as [ex|page].
    { exists 1%nat. split; [lia|]. by split; [|split]. }
    rewrite bind_Return.
    destruct (parse_valid_response _ _) as [ex|recs].
    { exists 1%nat. split; [lia|]. by split; [|split]. }
    rewrite bind_Return. unfold mret, result_ret.
    destruct (IH (start + space)%Z (count + Z.of_nat (length recs))%Z
                 (after_request w (limited_url (query (self w)) (start + space) space)))
      as (m & Hm & Hself & Hsent & Hall).
    exists (S m).
    assert (sent w ++ [limited_url (query (self w)) (start + space) space]
              ++ map (λ k, limited_url (query (self w))
                             (start + space + Z.of_nat k * space) space) (seq 1 m)
            = sent w ++ map (λ k, limited_url (query (self w))
                                    (start + Z.of_nat k * space) space) (seq 1 (S m)))
      as Hshift.
    { change (seq 1 (S m)) with (1%nat :: seq 2 m). cbn [map].
      rewrite (shifted_cursors (λ cursor, limited_url (query (self w)) cursor space)).
      cbn [app]. do 3 f_equal. lia. }
    assert (Forall (λ k, start + Z.of_nat k * space ≤ end_)%Z (seq 1 (S m))) as Hall'.
    { change (seq 1 (S m)) with (1%nat :: seq 2 m).
      constructor; [simpl; lia|by apply Forall_shifted_cursors]. }
    cbn [after_request self sent] in Hself, Hsent. rewrite <-app_assoc in Hsent.
    destruct (drain _ _ _ _ _) as [[ex|more] w'']; cbn [snd] in *.
    all: split; [lia|]; split; [done|]; split; [|done].
    all: by rewrite Hsent.
  - rewrite next_stops by lia.
    exists 0%nat. split; [lia|]. split; [done|]. split; [|constructor].
    cbn. by rewrite app_nil_r.
Qed.

Section Unending.

Variables (space end_ : Z).
Hypothesis space_nonpos : (space ≤ 0)%Z.

Hypothesis pages_parse :
  ∀ history url, ∃ page recs,
    service history url = Return page
    ∧ parse_valid_response fromstring (r.text page) = Return recs.

(** With a page size that is not positive the cursor never passes a bound
it has not passed yet: every step fetches, and no fuel is enough. *)
Lemma drain_suspended_unending fuel :
  ∀ start count w,
    (start + space ≤ end_)%Z →
    ∃ w', drain fromstring service fuel (GenSuspended start space end_ count) w
          = (Return None, w')
      ∧ self w' = self w
      ∧ sent w' = sent w ++ map (λ k, limited_url (query (self w))
                                         (start + Z.of_nat k * space) space)
                                (seq 1 fuel).
Proof.
  induction fuel as [|fuel IH]; intros start count w Hle.
  { exists w. by rewrite app_nil_r. }
  rewrite drain_succ, next_fetches by done.
  destruct (pages_parse (sent w) (limited_url (query (self w)) (start + space) space))
    as (page & recs & Hpage & Hrecs).
  rewrite (fetch_page_yields _ _ _ _ _ _ _ page recs) by done.
  destruct (IH (start + space)%Z (count + Z.of_nat (length recs))%Z
               (after_request w (limited_url (query (self w)) (start + space) space)))
    as (w' & -> & Hself & Hsent); [lia|].
  exists w'. split; [done|]. split; [done|].
  rewrite Hsent. cbn [after_request self sent].
  change (seq 1 (S fuel)) with (1%nat :: seq 2 fuel). cbn [map].
  rewrite (shifted_cursors (λ cursor, limited_url (query (self w)) cursor space)).
  rewrite <-app_assoc. cbn [app]. do 3 f_equal. lia.
Qed.

End Unending.

End Generator.

(** X5. The loop fetches before it tests: a generator whose first window
    already reaches past the bound, also one that starts past it or has the
    bound 0, still requests its first page and yields it, and then returns
    without a second request. *)
Theorem first_page_is_fetched_before_the_test
    (fromstring : string → option xee.Element)
    (service : list string → string → result r.Response)
    (start space end_ : Z) (w : World) (page : r.Response)
    (recs : list sr.SearchResult) (fuel : nat) :
  let url := limited_url (query (self w)) start space in
  (start + space > end_)%Z →
  service (sent w) url = Return page →
  parse_valid_response fromstring (r.text page) = Return recs →
  (2 ≤ fuel)%nat →
  drain fromstring service fuel (retrieve_valid_search_results start space end_) w
  = (Return (Some [enumerate recs]), after_request w url).
Proof.
  intros url Hgt Hpage Hrecs Hfuel.
  destruct fuel as [|[|fuel]]; [lia..|].
  unfold retrieve_valid_search_results. rewrite drain_succ. cbn [next].
  rewrite (fetch_page_yields _ _ _ _ _ _ _ page recs) by done.
  by rewrite drain_succ, next_stops.
Qed.

Lemma first_page_is_fetched_before_the_test_witness :
  (30 + 10 > 0)%Z
  ∧ ∃ b, drain Samples.fromstring Samples.feed_service 2
           (retrieve_valid_search_results 30 10 0)
           {| self := Samples.deep_query; sent := [] |}
         = (Return (Some [b]),
            {| self := Samples.deep_query;
               sent := ["http://export.arxiv.org/api/query/?search_query=ti:deep&start=30&max_result=10"] |}).
Proof.
  split; [done|]. eexists.
  apply (first_page_is_fetched_before_the_test
           Samples.fromstring Samples.feed_service 30 10 0
           {| self := Samples.deep_query; sent := [] |}
           {| r.status_code := 200; r.text := Samples.feed_text |});
    [done|done|by vm_compute|lia].
Defined.

(** X6. With a positive page size and page requests that are answered and
    parse, the generator returns after [1 + (end - start) / space] batches
    when [start + space <= end], and after one batch otherwise; the requests
    are at the cursors [start + k * space] in increasing order, and the
    number of batches does not depend on what the pages hold. *)
Theorem batches_up_to_total
    (fromstring : string → option xee.Element)
    (service : list string → string → result r.Response)
    (start space end_ : Z) (w : World) (fuel : nat) :
  (0 < space)%Z →
  (∀ history url, ∃ page recs,
     service history url = Return page
     ∧ parse_valid_response fromstring (r.text page) = Return recs) →
  let n := if (start + space <=? end_)%Z
           then Z.to_nat ((end_ - start) / space) else 0%nat in
  (S n < fuel)%nat →
  ∃ batches w',
    drain fromstring service fuel (retrieve_valid_search_results start space end_) w
    = (Return (Some batches), w')
    ∧ length batches = S n
    ∧ self w' = self w
    ∧ sent w' = sent w ++ map (λ k, limited_url (query (self w))
                                       (start + Z.of_nat k * space) space)
                              (seq 0 (S n)).
Proof.
  intros Hspace Hpages n Hfuel. unfold retrieve_valid_search_results.
  by apply drain_created.
Qed.

Lemma batches_up_to_total_witness :
  (0 < 10)%Z
  ∧ ∃ batches w',
      drain Samples.fromstring Samples.feed_service 4
        (retrieve_valid_search_results 0 10 20)
        {| self := Samples.deep_query; sent := [] |}
      = (Return (Some batches), w')
      ∧ length batches = 3%nat
      ∧ sent w'
        = ["http://export.arxiv.org/api/query/?search_query=ti:deep&start=0&max_result=10";
           "http://export.arxiv.org/api/query/?search_query=ti:deep&start=10&max_result=10";
           "http://export.arxiv.org/api/query/?search_query=ti:deep&start=20&max_result=10"].
Proof.
  split; [done|].
  destruct (batches_up_to_total Samples.fromstring Samples.feed_service 0 10 20
              {| self := Samples.deep_query; sent := [] |} 4)
    as (batches & w' & Hdrain & Hlen & _ & Hsent).
  - done.
  - intros history url.
    exists {| r.status_code := 200; r.text := Samples.feed_text |}.
    eexists. split; [done|]. by vm_compute.
  - vm_compute. lia.
  - exists batches, w'. split; [exact Hdrain|]. split; [exact Hlen|]. exact Hsent.
Defined.

(** X7. With a page size that is zero or negative and a first advance that
    stays within the bound, the generator never returns: as long as page
    requests are answered and parse, every step sends another request, at
    [start + k * space], whatever the number of steps. *)
Theorem nonpositive_page_size_never_returns
    (fromstring : string → option xee.Element)
    (service : list string → string → result r.Response)
    (start space end_ : Z) (w : World) (fuel : nat) :
  (space ≤ 0)%Z →
  (start + space ≤ end_)%Z →
  (∀ history url, ∃ page recs,
     service history url = Return page
     ∧ parse_valid_response fromstring (r.text page) = Return recs) →
  ∃ w',
    drain fromstring service fuel (retrieve_valid_search_results start space end_) w
    = (Return None, w')
    ∧ self w' = self w
    ∧ sent w' = sent w ++ map (λ k, limited_url (query (self w))
                                       (start + Z.of_nat k * space) space)
                              (seq 0 fuel).
Proof.
  intros Hspace Hle Hpages. unfold retrieve_valid_search_results.
  destruct fuel as [|fuel].
  { exists w. by rewrite app_nil_r. }
  rewrite drain_succ. cbn [next].
  destruct (Hpages (sent w) (limited_url (query (self w)) start space))
    as (page & recs & Hpage & Hrecs).
  rewrite (fetch_page_yields _ _ _ _ _ _ _ page recs) by done.
  destruct (drain_suspended_unending fromstring service space end_ Hspace Hpages fuel
              start (0 + Z.of_nat (length recs))%Z
              (after_request w (limited_url (query (self w)) start space)) Hle)
    as (w' & -> & Hself & Hsent).
  exists w'. split; [done|]. split; [done|].
  rewrite Hsent. cbn [after_request self sent].
  change (seq 0 (S fuel)) with (0%nat :: seq 1 fuel). cbn [map].
  rewrite <-app_assoc. cbn [app]. do 3 f_equal. lia.
Qed.

Lemma nonpositive_page_size_never_returns_witness :
  (0 ≤ 0)%Z ∧ (0 + 0 ≤ 25)%Z
  ∧ ∃ w',
      drain Samples.fromstring Samples.feed_service 3
        (retrieve_valid_search_results 0 0 25)
        {| self := Samples.deep_query; sent := [] |}
      = (Return None, w')
      ∧ sent w'
        = ["http://export.arxiv.org/api/query/?search_query=ti:deep&start=0&max_result=0";
           "http://export.arxiv.org/api/query/?search_query=ti:deep&start=0&max_result=0";
           "http://export.arxiv.org/api/query/?search_query=ti:deep&start=0&max_result=0"].
Proof.
  split; [done|]. split; [done|].
  destruct (nonpositive_page_size_never_returns
              Samples.fromstring Samples.feed_service 0 0 25
              {| self := Samples.deep_query; sent := [] |} 3)
    as (w' & Hdrain & _ & Hsent).
  - done.
  - done.
  - intros history url.
    exists {| r.status_code := 200; r.text := Samples.feed_text |}.
    eexists. split; [done|]. by vm_compute.
  - exists w'. split; [exact Hdrain|]. exact Hsent.
Defined.

(** X8. Whatever the service answers and whatever the page size, the page
    requests of a generator are at the cursors [start], [start + space],
    [start + 2 * space], ... in this order with none left out, at most one
    per step, and every cursor after the first is at most the bound: no
    page past the total is ever requested after the first. *)
Theorem requests_follow_the_cursor
    (fromstring : string → option xee.Element)
    (service : list string → string → result r.Response)
    (start space end_ : Z) (w : World) (fuel : nat) :
  let w' := (drain fromstring service fuel
               (retrieve_valid_search_results start space end_) w).2 in
  ∃ m, (m ≤ fuel)%nat
    ∧ self w' = self w
    ∧ sent w' = sent w ++ map (λ k, limited_url (query (self w))
                                       (start + Z.of_nat k * space) space)
                              (seq 0 m)
    ∧ ∀ k, (1 ≤ k < m)%nat → (start + Z.of_nat k * space ≤ end_)%Z.
Proof.
  intros w'. subst w'. unfold retrieve_valid_search_results.
  destruct fuel as [|fuel].
  { exists 0%nat. split; [done|]. split; [done|]. split; [|lia].
    cbn. by rewrite app_nil_r. }
  rewrite drain_succ. cbn [next]. rewrite fetch_page_run. cbv zeta.
  assert (sent (after_request w (limited_url (query (self w)) start space))
          = sent w ++ map (λ k, limited_url (query (self w))
                                  (start + Z.of_nat k * space) space) (seq 0 1))
    as Hsent1.
  { cbn. do 3 f_equal. lia. }
  destruct (service _ _) as [ex|page].
  { exists 1%nat. split; [lia|]. split; [done|]. split; [done|]. lia. }
  rewrite bind_Return.
  destruct (parse_valid_response _ _) as [ex|recs].
  { exists 1%nat. split; [lia|]. split; [done|]. split; [done|]. lia. }
  rewrite bind_Return. unfold mret, result_ret.
  destruct (drain_suspended_requests fromstring service space end_ fuel start
              (0 + Z.of_nat (length recs))%Z
              (after_request w (limited_url (query (self w)) start space)))
    as (m & Hm & Hself & Hsent & Hall).
  exists (S m).
  assert (∀ k, (1 ≤ k < S m)%nat → (start + Z.of_nat k * space ≤ end_)%Z) as Hbound.
  { intros k Hk. rewrite Forall_forall in Hall. apply Hall, elem_of_seq. lia. }
  cbn [after_request self sent] in Hself, Hsent. rewrite <-app_assoc in Hsent.
  assert (sent w ++ [limited_url (query (self w)) start space]
            ++ map (λ k, limited_url (query (self w))
                           (start + Z.of_nat k * space) space) (seq 1 m)
          = sent w ++ map (λ k, limited_url (query (self w))
                                  (start + Z.of_nat k * space) space) (seq 0 (S m)))
    as Hshift.
  { change (seq 0 (S m)) with (0%nat :: seq 1 m). cbn [map app].
    do 3 f_equal. lia. }
  destruct (drain _ _ _ _ _) as [[ex|more] w'']; cbn [snd] in *.
  all: split; [lia|]; split; [done|]; split; [|done].
  all: by rewrite Hsent.
Qed.

(** X9. Every batch the generator yields is the parsed answer to the one
    request it has just sent: its second components are the records of that
    page in order, its first components count them from 0, and the
    generator is left suspended at the cursor of that request with its
    count raised by the number of records, space and bound unchanged. *)
Theorem yielded_batch_is_the_parsed_page
    (fromstring : string → option xee.Element)
    (service : list string → string → result r.Response)
    (g g' : generator) (w w' : World) (b : batch) :
  next fromstring service g w = (Return (Some b, g'), w') →
  ∃ cursor space end_ count page recs,
    w' = after_request w (limited_url (query (self w)) cursor space)
    ∧ service (sent w) (limited_url (query (self w)) cursor space) = Return page
    ∧ parse_valid_response fromstring (r.text page) = Return recs
    ∧ b.*2 = recs
    ∧ b.*1 = seq 0 (length recs)
    ∧ g' = GenSuspended cursor space end_ (count + Z.of_nat (length recs))%Z
    ∧ (g = GenCreated cursor space end_ ∧ count = 0%Z
       ∨ ∃ previous, g = GenSuspended previous space end_ count
                     ∧ cursor = (previous + space)%Z ∧ (cursor ≤ end_)%Z).
Proof.
  destruct g as [st sp e|st sp e c|]; cbn [next]; [| |done].
  - intros (page & recs & Hpage & Hrecs & -> & -> & ->)%fetch_page_inv.
    exists st, sp, e, 0%Z, page, recs.
    rewrite enumerate_fst, enumerate_snd. repeat split; try done. by left.
  - destruct (st + sp >? e)%Z eqn:Hgt; [done|].
    intros (page & recs & Hpage & Hrecs & -> & -> & ->)%fetch_page_inv.
    exists (st + sp)%Z, sp, e, c, page, recs.
    rewrite enumerate_fst, enumerate_snd. repeat split; try done.
    right. exists st. repeat split; try done.
    destruct (Z.gtb_spec (st + sp) e); [done|lia].
Qed.

Lemma yielded_batch_is_the_parsed_page_witness :
  ∃ b g' w',
    next Samples.fromstring Samples.feed_service (GenSuspended 0 10 25 2)
      {| self := Samples.deep_query; sent := [] |} = (Return (Some b, g'), w')
    ∧ b.*1 = [0; 1]%nat
    ∧ g' = GenSuspended 10 10 25 4.
Proof.
  eexists _, _, _. split; [by vm_compute|].
  destruct (yielded_batch_is_the_parsed_page
              Samples.fromstring Samples.feed_service (GenSuspended 0 10 25 2) _
              {| self := Samples.deep_query; sent := [] |} _ _ eq_refl)
    as (cursor & space & end_ & count & page & recs & _ & _ & _ & _ & Hfst & _).
  split; [|done]. rewrite Hfst at 1. done.
Defined.

(** ** Records and request URLs *)

(** X10. A parsed page has one record for every entry element of the feed,
    in document order; each record has one author for every author element
    of its entry, and an empty set of keywords. *)
Theorem one_record_per_entry
    (fromstring : string → option xee.Element) (xml : string)
    (root : xee.Element) (recs : list sr.SearchResult) :
  fromstring xml = Some root →
  parse_valid_response fromstring xml = Return recs →
  length recs = length (get_atom_children root "entry")
  ∧ Forall2 (λ entry rec,
       length (sr.authors rec) = length (get_atom_children entry "author")
       ∧ sr.keywords rec = ∅)
      (get_atom_children root "entry") recs.
Proof.
  intros Hroot Hrecs.
  pose proof (parse_valid_response_entries _ _ _ _ Hroot Hrecs) as Hall.
  split; [symmetry; by eapply Forall2_length|].
  eapply Forall2_impl; [exact Hall|]. intros entry rec Hrec; simpl in Hrec.
  apply parse_entry_inv in Hrec
    as (title_e & id_e & raw & summary_e & published_e & _ & _ & _ & _
        & _ & Hauthors & _ & _ & _ & _ & _ & Hkeywords).
  split; [symmetry; by eapply Forall2_length|done].
Qed.

Lemma one_record_per_entry_witness :
  Samples.fromstring Samples.feed_text = Some Samples.feed_tree
  ∧ ∃ recs, parse_valid_response Samples.fromstring Samples.feed_text = Return recs
      ∧ length recs = 2%nat
      ∧ (length ∘ sr.authors) <$> recs = [1; 0]%nat.
Proof.
  split; [done|]. eexists. split; [by vm_compute|].
  destruct (one_record_per_entry Samples.fromstring Samples.feed_text
              Samples.feed_tree _ eq_refl eq_refl) as [Hlen _].
  split; [exact Hlen|done].
Defined.

Section Numerals.

(** A decimal numeral has no [&]. *)
Lemma pretty_N_go_no_amp x s :
  PyStr.has_char "&" s = false → PyStr.has_char "&" (pretty_N_go x s) = false.
Proof.
  revert s. induction (N.lt_wf_0 x) as [x _ IH]; intros s Hs.
  assert (x = 0 ∨ 0 < x)%N as [->|Hpos] by lia.
  - by rewrite pretty_N_go_0.
  - rewrite pretty_N_go_step by done. apply IH.
    { by apply N.div_lt. }
    simpl. rewrite Hs, orb_false_r.
    unfold pretty_N_char. by repeat case_match.
Qed.

Lemma pretty_Z_no_amp (z : Z) : PyStr.has_char "&" (pretty z) = false.
Proof.
  assert (∀ p : positive, PyStr.has_char "&" (pretty p) = false) as Hpos.
  { intros p. unfold pretty, pretty_positive, pretty, pretty_N.
    case_decide; [done|]. by apply pretty_N_go_no_amp. }
  destruct z as [|p|p]; [done|apply Hpos|].
  unfold pretty, pretty_Z. rewrite append_cons. simpl. apply Hpos.
Qed.

(** Two texts without [c] that agree up to and after a [c] are equal. *)
Lemma append_cut_inj c a b r r' :
  PyStr.has_char c a = false → PyStr.has_char c b = false →
  a +:+ String c r = b +:+ String c r' → a = b ∧ r = r'.
Proof.
  revert b. induction a as [|x a IH]; intros [|y b] Ha Hb.
  - by intros [= ->].
  - rewrite append_cons. intros [= -> _]. simpl in Hb.
    by rewrite Ascii.eqb_refl in Hb.
  - rewrite append_cons. intros [= -> _]. simpl in Ha.
    by rewrite Ascii.eqb_refl in Ha.
  - rewrite !append_cons. intros [= -> Heq]. simpl in Ha, Hb.
    apply orb_false_iff in Ha as [_ Ha]. apply orb_false_iff in Hb as [_ Hb].
    destruct (IH b Ha Hb Heq) as [-> ->]. done.
Qed.

Lemma limited_url_inj q start space start' space' :
  limited_url q start space = limited_url q start' space' →
  start = start' ∧ space = space'.
Proof.
  unfold limited_url. intros Heq.
  apply (inj (String.app q)) in Heq. apply (inj (String.app "&start=")) in Heq.
  change ("&max_result=" +:+ ?x) with (String "&" ("max_result=" +:+ x)) in Heq.
  apply append_cut_inj in Heq as [Hstart Hspace]; [|apply pretty_Z_no_amp..].
  apply (inj (String.app "max_result=")) in Hspace.
  split; by apply (inj pretty).
Qed.

End Numerals.

(** X11. The URL of a bounded request determines its window: for one query,
    two windows that differ in their start or in their size have different
    URLs. *)
Theorem windows_have_their_own_url (q : string) (start space start' space' : Z) :
  (start, space) ≠ (start', space') →
  limited_url q start space ≠ limited_url q start' space'.
Proof.
  intros Hne Heq. apply limited_url_inj in Heq as [-> ->]. by apply Hne.
Qed.

Lemma windows_have_their_own_url_witness :
  (10, 10)%Z ≠ (20, 10)%Z
  ∧ limited_url "http://export.arxiv.org/api/query/?id_list=1234.5678" 10 10
    ≠ limited_url "http://export.arxiv.org/api/query/?id_list=1234.5678" 20 10.
Proof.
  assert ((10, 10)%Z ≠ (20, 10)%Z) as Hne by done.
  split; [exact Hne|].
  exact (windows_have_their_own_url
           "http://export.arxiv.org/api/query/?id_list=1234.5678" 10 10 20 10 Hne).
Defined.

(** ** The shell *)

Section ShellFacts.

Import arxives.

Lemma split_on_space_length line :
  length (split_on_space line) = S (spaces line).
Proof.
  induction line as [|c rest IH]; [done|]. simpl.
  destruct (Ascii.eqb c " "); simpl; [by rewrite IH|].
  destruct (split_on_space rest); [done|]. simpl in *. lia.
Qed.

Lemma split_on_space_whole line :
  spaces line = 0%nat → split_on_space line = [line].
Proof.
  induction line as [|c rest IH]; [done|]. simpl.
  destruct (Ascii.eqb c " "); [done|]. simpl. by intros ->%IH.
Qed.

Variable State : Type.
Variable equals : string → UserOptions → bool.
Variables view_mode search_mode suggest_mode : State → option raised * State.
Variable input : State → (raised + string) * State.
Variable print : string → State → option raised * State.

Lemma execute_params_arity params s :
  length params ≠ 1%nat →
  execute_params State equals view_mode search_mode suggest_mode params s
  = (inl (ValueError "only require command name to select a mode"), s).
Proof. by destruct params as [|mode [|other params]]. Qed.

(** What [handle] lets through in [prod] mode was raised by [print] or does
not derive from [Exception]. *)
Lemma handle_prod e s e' s' :
  handle State print "prod" e s = (Some e', s') →
  (∃ text s0, print text s0 = (Some e', s')) ∨ is_Exception e' = false.
Proof.
  unfold handle. destruct (is_Exception e) eqn:He.
  - cbn. intros Hprint. left. by eexists _, _.
  - intros [= <- _]. by right.
Qed.

Lemma iteration_prod s e s' :
  iteration State equals view_mode search_mode suggest_mode input print "prod" s
  = (Some e, s') →
  (∃ text s0, print text s0 = (Some e, s')) ∨ is_Exception e = false.
Proof.
  unfold iteration. destruct (input s) as [[e0|line] s1].
  - apply handle_prod.
  - destruct (execute_params _ _ _ _ _ _ _) as [[e0|member] s2]; [|done].
    apply handle_prod.
Qed.

End ShellFacts.

(** X12. [execute_params] wants exactly one parameter: with none or with
    more than one it raises the [ValueError] "only require command name to
    select a mode" and runs no mode; the state is as it was. *)
Theorem execute_params_wants_one_parameter (State : Type)
    (equals : string → arxives.UserOptions → bool)
    (view_mode search_mode suggest_mode : State → option arxives.raised * State)
    (params : list string) (s : State) :
  length params ≠ 1%nat →
  arxives.execute_params State equals view_mode search_mode suggest_mode params s
  = (inl (arxives.ValueError "only require command name to select a mode"), s).
Proof. intros Hlen. by apply execute_params_arity. Qed.

Lemma execute_params_wants_one_parameter_witness :
  length ["search"; "deep"] ≠ 1%nat
  ∧ arxives.execute_params arxives.Terminal arxives.value_equals
      (arxives.terminal_mode arxives.SAVED) (arxives.terminal_mode arxives.SEARCH)
      (arxives.terminal_mode arxives.SUGGEST) ["search"; "deep"]
      {| arxives.lines := []; arxives.printed := []; arxives.ran := [] |}
    = (inl (arxives.ValueError "only require command name to select a mode"),
       {| arxives.lines := []; arxives.printed := []; arxives.ran := [] |}).
Proof.
  assert (length ["search"; "deep"] ≠ 1%nat) as Hlen by done.
  split; [exact Hlen|].
  exact (execute_params_wants_one_parameter arxives.Terminal arxives.value_equals
           (arxives.terminal_mode arxives.SAVED) (arxives.terminal_mode arxives.SEARCH)
           (arxives.terminal_mode arxives.SUGGEST) ["search"; "deep"]
           {| arxives.lines := []; arxives.printed := []; arxives.ran := [] |} Hlen).
Defined.

(** X13. When [execute_params] returns, it was given one parameter that
    equals the member returned, the mode of that member has run and
    returned, no other mode has run, and the member is not [EXIT]:
    [execute_params] never returns [UserOptions.EXIT]. *)
Theorem execute_params_returns_the_mode_that_ran (State : Type)
    (equals : string → arxives.UserOptions → bool)
    (view_mode search_mode suggest_mode : State → option arxives.raised * State)
    (params : list string) (s s' : State) (member : arxives.UserOptions) :
  arxives.execute_params State equals view_mode search_mode suggest_mode params s
  = (inr member, s') →
  ∃ mode, params = [mode]
    ∧ equals mode member = true
    ∧ match member with
      | arxives.SAVED => view_mode s = (None, s')
      | arxives.SEARCH => search_mode s = (None, s')
      | arxives.SUGGEST => suggest_mode s = (None, s')
      | arxives.EXIT => False
      end.
Proof.
  destruct params as [|mode [|other params]]; [done| |done].
  unfold arxives.execute_params, arxives.run_mode. cbn [truthy_list negb length].
  change (negb true || (1 <? 1)%nat) with false. cbv iota.
  destruct (equals mode arxives.SAVED) eqn:Hsaved.
  { destruct (view_mode s) as [[e|] s1] eqn:Hrun; [done|].
    intros [= <- <-]. by exists mode. }
  destruct (equals mode arxives.SEARCH) eqn:Hsearch.
  { destruct (search_mode s) as [[e|] s1] eqn:Hrun; [done|].
    intros [= <- <-]. by exists mode. }
  destruct (equals mode arxives.SUGGEST) eqn:Hsuggest.
  { destruct (suggest_mode s) as [[e|] s1] eqn:Hrun; [done|].
    intros [= <- <-]. by exists mode. }
  by destruct (equals mode arxives.EXIT).
Qed.

Lemma execute_params_returns_the_mode_that_ran_witness :
  ∃ s',
    arxives.execute_params arxives.Terminal arxives.value_equals
      (arxives.terminal_mode arxives.SAVED) (arxives.terminal_mode arxives.SEARCH)
      (arxives.terminal_mode arxives.SUGGEST) ["search"]
      {| arxives.lines := []; arxives.printed := []; arxives.ran := [] |}
    = (inr arxives.SEARCH, s')
    ∧ arxives.ran s' = [arxives.SEARCH].
Proof.
  eexists. split; [by vm_compute|].
  destruct (execute_params_returns_the_mode_that_ran arxives.Terminal
              arxives.value_equals
              (arxives.terminal_mode arxives.SAVED) (arxives.terminal_mode arxives.SEARCH)
              (arxives.terminal_mode arxives.SUGGEST) ["search"]
              {| arxives.lines := []; arxives.printed := []; arxives.ran := [] |}
              _ arxives.SEARCH eq_refl) as (mode & _ & _ & Hran).
  exact (f_equal (λ out, arxives.ran out.2) Hran).
Defined.

(** X14. A single parameter that equals no member makes [execute_params]
    raise the [ValueError] "<parameter> is not a supported mode", and one
    that equals [EXIT] only makes it raise [SystemExit]; in both cases no
    mode has run and the state is as it was. *)
Theorem execute_params_without_a_mode (State : Type)
    (equals : string → arxives.UserOptions → bool)
    (view_mode search_mode suggest_mode : State → option arxives.raised * State)
    (mode : string) (s : State) :
  equals mode arxives.SAVED = false →
  equals mode arxives.SEARCH = false →
  equals mode arxives.SUGGEST = false →
  arxives.execute_params State equals view_mode search_mode suggest_mode [mode] s
  = (inl (if equals mode arxives.EXIT then arxives.SystemExit
          else arxives.ValueError (mode +:+ " is not a supported mode")), s).
Proof.
  intros Hsaved Hsearch Hsuggest. unfold arxives.execute_params.
  cbn [truthy_list negb length]. change (negb true || (1 <? 1)%nat) with false.
  cbv iota. rewrite Hsaved, Hsearch, Hsuggest.
  by destruct (equals mode arxives.EXIT).
Qed.

Lemma execute_params_without_a_mode_witness :
  arxives.execute_params arxives.Terminal arxives.value_equals
    (arxives.terminal_mode arxives.SAVED) (arxives.terminal_mode arxives.SEARCH)
    (arxives.terminal_mode arxives.SUGGEST) ["find"]
    {| arxives.lines := []; arxives.printed := []; arxives.ran := [] |}
  = (inl (arxives.ValueError "find is not a supported mode"),
     {| arxives.lines := []; arxives.printed := []; arxives.ran := [] |})
  ∧ arxives.execute_params arxives.Terminal arxives.value_equals
      (arxives.terminal_mode arxives.SAVED) (arxives.terminal_mode arxives.SEARCH)
      (arxives.terminal_mode arxives.SUGGEST) ["exit"]
      {| arxives.lines := []; arxives.printed := []; arxives.ran := [] |}
    = (inl arxives.SystemExit,
       {| arxives.lines := []; arxives.printed := []; arxives.ran := [] |}).
Proof.
  split.
  - exact (execute_params_without_a_mode arxives.Terminal arxives.value_equals
             (arxives.terminal_mode arxives.SAVED) (arxives.terminal_mode arxives.SEARCH)
             (arxives.terminal_mode arxives.SUGGEST) "find"
             {| arxives.lines := []; arxives.printed := []; arxives.ran := [] |}
             eq_refl eq_refl eq_refl).
  - exact (execute_params_without_a_mode arxives.Terminal arxives.value_equals
             (arxives.terminal_mode arxives.SAVED) (arxives.terminal_mode arxives.SEARCH)
             (arxives.terminal_mode arxives.SUGGEST) "exit"
             {| arxives.lines := []; arxives.printed := []; arxives.ran := [] |}
             eq_refl eq_refl eq_refl).
Defined.

Section LoopFacts.

Import arxives.

Variable State : Type.
Variable equals : string → UserOptions → bool.
Variables view_mode search_mode suggest_mode : State → option raised * State.
Variable input : State → (raised + string) * State.
Variable print : string → State → option raised * State.

Lemma loop_prod fuel s e s' :
  loop State equals view_mode search_mode suggest_mode input print fuel "prod" s
  = (Some e, s') →
  (∃ text s0, print text s0 = (Some e, s')) ∨ is_Exception e = false.
Proof.
  revert s. induction fuel as [|fuel IH]; intros s; [done|]. cbn [loop].
  destruct (iteration _ _ _ _ _ _ _ _ _) as [[e0|] s1] eqn:Hpass.
  - intros [= <- <-]. by eapply iteration_prod.
  - apply IH.
Qed.

Lemma loop_prod_unending fuel s :
  (∀ s0, ∃ e s1, input s0 = (inl e, s1) ∧ is_Exception e = true) →
  (∀ text s0, (print text s0).1 = None) →
  (loop State equals view_mode search_mode suggest_mode input print fuel "prod" s).1
  = None.
Proof.
  intros Hinput Hprint. revert s. induction fuel as [|fuel IH]; intros s; [done|].
  cbn [loop]. unfold iteration, handle.
  destruct (Hinput s) as (e & s1 & -> & ->). cbn.
  specialize (Hprint (shown e) s1).
  destruct (print (shown e) s1) as [[e'|] s2]; [done|]. apply IH.
Qed.

(** In [prod] mode, what [print] raises while an exception is handled leaves
the loop. *)
Lemma iteration_prod_print_raises s e s1 e' s2 :
  input s = (inl e, s1) → is_Exception e = true →
  print (shown e) s1 = (Some e', s2) →
  iteration State equals view_mode search_mode suggest_mode input print "prod" s
  = (Some e', s2).
Proof.
  intros Hinput He Hprint. unfold iteration, handle. by rewrite Hinput, He.
Qed.

End LoopFacts.

(** X15. [main] splits the line it reads at every single space, so a line
    with [n] spaces gives [n + 1] parameters and a line without a space is
    one parameter; a line with a space in it, also a trailing one, is
    therefore turned down by the check of [execute_params] before any mode
    runs: in [prod] mode the message is handed to [print], and the loop
    goes on when [print] returns; in [dev] mode the [ValueError] ends
    [main]. *)
Theorem line_with_a_space_is_turned_down (State : Type)
    (equals : string → arxives.UserOptions → bool)
    (view_mode search_mode suggest_mode : State → option arxives.raised * State)
    (input : State → (arxives.raised + string) * State)
    (print : string → State → option arxives.raised * State)
    (s s1 : State) (line : string) :
  input s = (inr line, s1) →
  length (arxives.split_on_space line) = S (arxives.spaces line)
  ∧ (arxives.spaces line = 0%nat → arxives.split_on_space line = [line])
  ∧ ((0 < arxives.spaces line)%nat →
     arxives.iteration State equals view_mode search_mode suggest_mode input print
       "prod" s
     = print "only require command name to select a mode" s1
     ∧ arxives.iteration State equals view_mode search_mode suggest_mode input print
         "dev" s
       = (Some (arxives.ValueError "only require command name to select a mode"), s1)).
Proof.
  intros Hline. split; [apply split_on_space_length|].
  split; [apply split_on_space_whole|]. intros Hspaces.
  unfold arxives.iteration. rewrite Hline, execute_params_arity; [done|].
  rewrite split_on_space_length. lia.
Qed.

Lemma line_with_a_space_is_turned_down_witness :
  (0 < arxives.spaces "search ")%nat
  ∧ arxives.iteration arxives.Terminal arxives.value_equals
      (arxives.terminal_mode arxives.SAVED) (arxives.terminal_mode arxives.SEARCH)
      (arxives.terminal_mode arxives.SUGGEST) arxives.terminal_input
      arxives.terminal_print "prod"
      {| arxives.lines := ["search "]; arxives.printed := []; arxives.ran := [] |}
    = (None,
       {| arxives.lines := [];
          arxives.printed := ["only require command name to select a mode"];
          arxives.ran := [] |}).
Proof.
  assert (0 < arxives.spaces "search ")%nat as Hspaces by (cbn; lia).
  split; [exact Hspaces|].
  destruct (line_with_a_space_is_turned_down arxives.Terminal arxives.value_equals
              (arxives.terminal_mode arxives.SAVED) (arxives.terminal_mode arxives.SEARCH)
              (arxives.terminal_mode arxives.SUGGEST) arxives.terminal_input
              arxives.terminal_print
              {| arxives.lines := ["search "]; arxives.printed := []; arxives.ran := [] |}
              {| arxives.lines := []; arxives.printed := []; arxives.ran := [] |}
              "search " eq_refl) as (_ & _ & Hturned).
  destruct (Hturned Hspaces) as [Hprod _]. exact Hprod.
Defined.

(** X16. [main] raises the [ValueError] "<mode> is an unsupported system
    mode" for a system mode other than [prod] and [dev], before it loads
    the database or reads a line. In [prod] mode, what ends [main] is raised
    by [load_db_info], or raised by [print] while an exception is handled,
    or does not derive from [Exception]; and what [print] raises there does
    end the loop. *)
Theorem what_ends_main_in_prod_mode (State : Type)
    (equals : string → arxives.UserOptions → bool)
    (view_mode search_mode suggest_mode load_db_info : State → option arxives.raised * State)
    (input : State → (arxives.raised + string) * State)
    (print : string → State → option arxives.raised * State)
    (fuel : nat) (s : State) :
  (∀ sys_mode, sys_mode ≠ "prod" → sys_mode ≠ "dev" →
     arxives.main State equals view_mode search_mode suggest_mode load_db_info
       input print fuel sys_mode s
     = (Some (arxives.ValueError (sys_mode +:+ " is an unsupported system mode")), s))
  ∧ (∀ e s',
       arxives.main State equals view_mode search_mode suggest_mode load_db_info
         input print fuel "prod" s = (Some e, s') →
       load_db_info s = (Some e, s')
       ∨ (∃ text s0, print text s0 = (Some e, s'))
       ∨ arxives.is_Exception e = false)
  ∧ (∀ e s1 e' s2,
       input s = (inl e, s1) → arxives.is_Exception e = true →
       print (arxives.shown e) s1 = (Some e', s2) →
       arxives.loop State equals view_mode search_mode suggest_mode input print
         (S fuel) "prod" s = (Some e', s2)).
Proof.
  split; [|split].
  - intros sys_mode Hprod Hdev. unfold arxives.main.
    apply String.eqb_neq in Hprod, Hdev. by rewrite Hprod, Hdev.
  - intros e s'. unfold arxives.main.
    change ("prod" =? "prod")%string with true. cbn [orb negb].
    destruct (load_db_info s) as [[e0|] s0].
    + intros [= <- <-]. by left.
    + intros Hloop. right. by eapply loop_prod.
  - intros e s1 e' s2 Hinput He Hprint. cbn [arxives.loop].
    by rewrite (iteration_prod_print_raises _ _ _ _ _ _ _ _ _ _ _ _ Hinput He Hprint).
Qed.

Lemma what_ends_main_in_prod_mode_witness :
  arxives.main arxives.Terminal arxives.value_equals
    (arxives.terminal_mode arxives.SAVED) (arxives.terminal_mode arxives.SEARCH)
    (arxives.terminal_mode arxives.SUGGEST) arxives.terminal_load
    arxives.terminal_input arxives.terminal_print 5 "prod"
    {| arxives.lines := ["find"; "saved"; "exit"; "search"];
       arxives.printed := []; arxives.ran := [] |}
  = (Some arxives.SystemExit,
     {| arxives.lines := ["search"];
        arxives.printed := ["find is not a supported mode"];
        arxives.ran := [arxives.SAVED] |})
  ∧ arxives.is_Exception arxives.SystemExit = false
  ∧ arxives.loop arxives.Terminal arxives.value_equals
      (arxives.terminal_mode arxives.SAVED) (arxives.terminal_mode arxives.SEARCH)
      (arxives.terminal_mode arxives.SUGGEST) arxives.terminal_input
      arxives.closed_pipe_print 1 "prod"
      {| arxives.lines := []; arxives.printed := []; arxives.ran := [] |}
    = (Some (arxives.Foreign true "[Errno 32] Broken pipe"),
       {| arxives.lines := []; arxives.printed := []; arxives.ran := [] |}).
Proof.
  split; [by vm_compute|].
  destruct (what_ends_main_in_prod_mode arxives.Terminal arxives.value_equals
              (arxives.terminal_mode arxives.SAVED) (arxives.terminal_mode arxives.SEARCH)
              (arxives.terminal_mode arxives.SUGGEST) arxives.terminal_load
              arxives.terminal_input arxives.terminal_print 5
              {| arxives.lines := ["find"; "saved"; "exit"; "search"];
                 arxives.printed := []; arxives.ran := [] |}) as (_ & Hprod & _).
  destruct (Hprod arxives.SystemExit
              {| arxives.lines := ["search"];
                 arxives.printed := ["find is not a supported mode"];
                 arxives.ran := [arxives.SAVED] |}) as [Hload|[Hprint|Hexc]].
  - by vm_compute.
  - discriminate Hload.
  - destruct Hprint as (text & s0 & Hprint). discriminate Hprint.
  - split; [exact Hexc|].
    destruct (what_ends_main_in_prod_mode arxives.Terminal
                arxives.value_equals
                (arxives.terminal_mode arxives.SAVED)
                (arxives.terminal_mode arxives.SEARCH)
                (arxives.terminal_mode arxives.SUGGEST) arxives.terminal_load
                arxives.terminal_input arxives.closed_pipe_print 0
                {| arxives.lines := []; arxives.printed := []; arxives.ran := [] |})
      as (_ & _ & Hpipe).
    exact (Hpipe (arxives.Foreign true "EOF when reading a line")
             {| arxives.lines := []; arxives.printed := []; arxives.ran := [] |}
             (arxives.Foreign true "[Errno 32] Broken pipe")
             {| arxives.lines := []; arxives.printed := []; arxives.ran := [] |}
             eq_refl eq_refl eq_refl).
Defined.

(** X17. Once [input] only raises what derives from [Exception], as it
    does at the end of the input, and as long as [print] returns, the loop
    of [main] in [prod] mode never ends: every pass prints and goes on,
    whatever the number of passes. *)
Theorem prod_mode_loops_at_end_of_input (State : Type)
    (equals : string → arxives.UserOptions → bool)
    (view_mode search_mode suggest_mode : State → option arxives.raised * State)
    (input : State → (arxives.raised + string) * State)
    (print : string → State → option arxives.raised * State)
    (fuel : nat) (s : State) :
  (∀ s0, ∃ e s1, input s0 = (inl e, s1) ∧ arxives.is_Exception e = true) →
  (∀ text s0, (print text s0).1 = None) →
  (arxives.loop State equals view_mode search_mode suggest_mode input print
     fuel "prod" s).1 = None.
Proof. intros Hinput Hprint. by apply loop_prod_unending. Qed.

Lemma prod_mode_loops_at_end_of_input_witness :
  (∀ t : arxives.Terminal, ∃ e t',
     (inl (arxives.Foreign true "EOF when reading a line"), t)
     = (@inl arxives.raised string e, t') ∧ arxives.is_Exception e = true)
  ∧ (∀ text t, (arxives.terminal_print text t).1 = None)
  ∧ (arxives.loop arxives.Terminal arxives.value_equals
       (arxives.terminal_mode arxives.SAVED) (arxives.terminal_mode arxives.SEARCH)
       (arxives.terminal_mode arxives.SUGGEST)
       (λ t, (inl (arxives.Foreign true "EOF when reading a line"), t))
       arxives.terminal_print 3 "prod"
       {| arxives.lines := []; arxives.printed := []; arxives.ran := [] |}).1
    = None.
Proof.
  assert (∀ t : arxives.Terminal, ∃ e t',
            (inl (arxives.Foreign true "EOF when reading a line"), t)
            = (@inl arxives.raised string e, t') ∧ arxives.is_Exception e = true)
    as Hinput by (intros t; by eexists _, _).
  assert (∀ text t, (arxives.terminal_print text t).1 = None) as Hprint by done.
  split; [exact Hinput|]. split; [exact Hprint|].
  exact (prod_mode_loops_at_end_of_input arxives.Terminal arxives.value_equals
           (arxives.terminal_mode arxives.SAVED) (arxives.terminal_mode arxives.SEARCH)
           (arxives.terminal_mode arxives.SUGGEST)
           (λ t, (inl (arxives.Foreign true "EOF when reading a line"), t))
           arxives.terminal_print 3
           {| arxives.lines := []; arxives.printed := []; arxives.ran := [] |}
           Hinput Hprint).
Defined.

(** X18. A line without a space that equals [EXIT] and no member tested
    before it ends the loop with [SystemExit] in every system mode, [prod]
    too: [sys.exit()] is not caught by [except Exception], and nothing is
    printed. *)
Theorem exit_ends_the_loop (State : Type)
    (equals : string → arxives.UserOptions → bool)
    (view_mode search_mode suggest_mode : State → option arxives.raised * State)
    (input : State → (arxives.raised + string) * State)
    (print : string → State → option arxives.raised * State)
    (sys_mode line : string) (s s1 : State) :
  input s = (inr line, s1) →
  arxives.spaces line = 0%nat →
  equals line arxives.SAVED = false →
  equals line arxives.SEARCH = false →
  equals line arxives.SUGGEST = false →
  equals line arxives.EXIT = true →
  arxives.iteration State equals view_mode search_mode suggest_mode input print
    sys_mode s
  = (Some arxives.SystemExit, s1).
Proof.
  intros Hline Hspaces Hsaved Hsearch Hsuggest Hexit.
  unfold arxives.iteration. rewrite Hline, split_on_space_whole by done.
  unfold arxives.execute_params. cbn [truthy_list negb length].
  change (negb true || (1 <? 1)%nat) with false. cbv iota.
  rewrite Hsaved, Hsearch, Hsuggest, Hexit.
  unfold arxives.handle. done.
Qed.

Lemma exit_ends_the_loop_witness :
  arxives.spaces "exit" = 0%nat
  ∧ arxives.iteration arxives.Terminal arxives.value_equals
      (arxives.terminal_mode arxives.SAVED) (arxives.terminal_mode arxives.SEARCH)
      (arxives.terminal_mode arxives.SUGGEST) arxives.terminal_input
      arxives.terminal_print "prod"
      {| arxives.lines := ["exit"; "saved"]; arxives.printed := []; arxives.ran := [] |}
    = (Some arxives.SystemExit,
       {| arxives.lines := ["saved"]; arxives.printed := []; arxives.ran := [] |}).
Proof.
  split; [done|].
  exact (exit_ends_the_loop arxives.Terminal arxives.value_equals
           (arxives.terminal_mode arxives.SAVED) (arxives.terminal_mode arxives.SEARCH)
           (arxives.terminal_mode arxives.SUGGEST) arxives.terminal_input
           arxives.terminal_print "prod" "exit"
           {| arxives.lines := ["exit"; "saved"]; arxives.printed := []; arxives.ran := [] |}
           {| arxives.lines := ["saved"]; arxives.printed := []; arxives.ran := [] |}
           eq_refl eq_refl eq_refl eq_refl eq_refl eq_refl).
Defined.
